(** * executor_linux.h: the Linux back end of the syzkaller executor

    A shallow embedding of [executor/executor_linux.h]: the remote
    coverage handle codec, the layout of the remote-enable control
    structure, the kernel bitness detector, the coverage operations
    ([cover_open], [cover_reset], [cover_collect], [cover_check]), the
    syscall executor and [doexit].

    Integers of the C code are [Z] with their ranges written out; bit
    operations are [Z.land], [Z.lor], [Z.shiftl], [Z.shiftr].  Pointers are
    addresses in [Z], [0] being the null pointer.  Calls into the operating
    system take their results from an explicit environment and are logged
    in a trace of events. *)

From Stdlib Require Import ZArith List String Ascii Bool Lia.
Import ListNotations.

Local Open Scope Z_scope.
Local Open Scope bool_scope.

(* ================================================================= *)
(** ** Remote coverage handles *)

Module Handle.

(** [#define KCOV_SUBSYSTEM_COMMON (0x00ull << 56)] *)
Definition KCOV_SUBSYSTEM_COMMON : Z := Z.shiftl 0x00 56.
(** [#define KCOV_SUBSYSTEM_USB (0x01ull << 56)] *)
Definition KCOV_SUBSYSTEM_USB : Z := Z.shiftl 0x01 56.
(** [#define KCOV_SUBSYSTEM_MASK (0xffull << 56)] *)
Definition KCOV_SUBSYSTEM_MASK : Z := Z.shiftl 0xff 56.
(** [#define KCOV_INSTANCE_MASK (0xffffffffull)] *)
Definition KCOV_INSTANCE_MASK : Z := 0xffffffff.

(** The values of [__u64]. *)
Definition is_u64 (x : Z) : Prop := 0 <= x < 2 ^ 64.

(** [~x] on an [unsigned long long]. *)
Definition not64 (x : Z) : Z := Z.land (Z.lnot x) (Z.ones 64).

(** [[
    static inline __u64 kcov_remote_handle(__u64 subsys, __u64 inst) {
      if (subsys & ~KCOV_SUBSYSTEM_MASK || inst & ~KCOV_INSTANCE_MASK)
        return 0;
      return subsys | inst;
    }
    ]] *)
Definition kcov_remote_handle (subsys inst : Z) : Z :=
  if negb (Z.land subsys (not64 KCOV_SUBSYSTEM_MASK) =? 0)
     || negb (Z.land inst (not64 KCOV_INSTANCE_MASK) =? 0)
  then 0
  else Z.lor subsys inst.

(** The decoder of the specification: the top byte and the low 32 bits
    of a handle.  It is not part of the source; it follows the
    specification's words and is what the round trip is stated with. *)
Definition decode (h : Z) : Z * Z :=
  (Z.land (Z.shiftr h 56) 0xff, Z.land h 0xffffffff).

(** *** The two masks, complemented *)

Lemma not64_subsystem_mask : not64 KCOV_SUBSYSTEM_MASK = Z.ones 56.
Proof. reflexivity. Qed.

Lemma not64_instance_mask :
  not64 KCOV_INSTANCE_MASK = Z.shiftl (Z.ones 32) 32.
Proof. reflexivity. Qed.

(** A subsystem passes the first test exactly when its low 56 bits are
    clear. *)
Lemma subsys_test (subsys : Z) :
  Z.land subsys (not64 KCOV_SUBSYSTEM_MASK) = subsys mod 2 ^ 56.
Proof. rewrite not64_subsystem_mask. apply Z.land_ones. lia. Qed.

(** An instance passes the second test exactly when it fits 32 bits. *)
Lemma inst_test_small (inst : Z) :
  0 <= inst < 2 ^ 32 ->
  Z.land inst (not64 KCOV_INSTANCE_MASK) = 0.
Proof.
  intros Hi. rewrite not64_instance_mask.
  apply Z.bits_inj'. intros n Hn.
  rewrite Z.land_spec, Z.bits_0.
  destruct (Z.ltb_spec n 32) as [Hlt | Hge].
  - rewrite Z.shiftl_spec_low by lia. apply andb_false_r.
  - replace inst with (inst mod 2 ^ 32) by (apply Z.mod_small; lia).
    rewrite Z.mod_pow2_bits_high by lia. reflexivity.
Qed.

Lemma inst_test_large (inst : Z) :
  2 ^ 32 <= inst < 2 ^ 64 ->
  Z.land inst (not64 KCOV_INSTANCE_MASK) <> 0.
Proof.
  intros Hi Hz. rewrite not64_instance_mask in Hz.
  assert (Hpos : 0 < inst) by lia.
  pose proof (Z.log2_le_pow2 inst 32 Hpos) as [Hlo _].
  pose proof (Z.log2_lt_pow2 inst 64 Hpos) as [Hhi _].
  assert (Hb : Z.testbit (Z.land inst (Z.shiftl (Z.ones 32) 32))
                         (Z.log2 inst) = true).
  { rewrite Z.land_spec, Z.bit_log2 by lia.
    rewrite Z.shiftl_spec by lia.
    rewrite Z.ones_spec_low by lia. reflexivity. }
  rewrite Hz, Z.bits_0 in Hb. discriminate.
Qed.

(** When both tests pass the handle is the bitwise or of its arguments. *)
Lemma handle_accepts (subsys inst : Z) :
  subsys mod 2 ^ 56 = 0 -> 0 <= inst < 2 ^ 32 ->
  kcov_remote_handle subsys inst = Z.lor subsys inst.
Proof.
  intros Hs Hi. unfold kcov_remote_handle.
  rewrite subsys_test, Hs, (inst_test_small inst Hi). reflexivity.
Qed.

(** A subsystem identifier moved to the top byte has its low 56 bits
    clear. *)
Lemma positioned_low_bits (s : Z) : Z.shiftl s 56 mod 2 ^ 56 = 0.
Proof. rewrite Z.shiftl_mul_pow2 by lia. apply Z.mod_mul. lia. Qed.

Lemma decode_positioned (s i : Z) :
  0 <= s < 256 -> 0 <= i < 2 ^ 32 ->
  decode (Z.lor (Z.shiftl s 56) i) = (s, i).
Proof.
  intros Hs Hi. unfold decode. f_equal.
  - rewrite Z.shiftr_lor, Z.shiftr_shiftl_l by lia.
    rewrite Z.sub_diag, Z.shiftl_0_r.
    rewrite (Z.shiftr_div_pow2 i) by lia.
    rewrite (Z.div_small i) by lia.
    rewrite Z.lor_0_r.
    change 0xff with (Z.ones 8). rewrite Z.land_ones by lia.
    apply Z.mod_small. lia.
  - change 0xffffffff with (Z.ones 32).
    rewrite Z.land_lor_distr_l, !Z.land_ones by lia.
    rewrite Z.shiftl_mul_pow2 by lia.
    replace (s * 2 ^ 56) with (s * 2 ^ 24 * 2 ^ 32) by lia.
    rewrite Z.mod_mul by lia.
    rewrite Z.mod_small by lia. reflexivity.
Qed.

(** *** Claims about the codec *)

(** C3, as the claim words it, fails: the subsystem argument of
    [kcov_remote_handle] is not shifted by the function, so the
    identifier 1 has bits below the top byte and the call
    [kcov_remote_handle(1, 0xFFFFFFFF)] returns the sentinel 0, which
    decodes to (0, 0) and differs from [(1<<56) | 0xFFFFFFFF]. *)
Lemma handle_unshifted_subsystem_rejected :
  0 <= 1 < 256 /\ 0 <= 0xFFFFFFFF < 2 ^ 32 /\
  kcov_remote_handle 1 0xFFFFFFFF = 0 /\
  decode (kcov_remote_handle 1 0xFFFFFFFF) <> (1, 0xFFFFFFFF) /\
  kcov_remote_handle 1 0xFFFFFFFF <> Z.lor (Z.shiftl 1 56) 0xFFFFFFFF.
Proof.
  repeat split; try lia; try reflexivity; vm_compute; discriminate.
Qed.

(** C3, amended: for every subsystem identifier [s < 256] passed in its
    position in the top byte ([s << 56], as [KCOV_SUBSYSTEM_COMMON] and
    [KCOV_SUBSYSTEM_USB] are) and every instance [i < 2^32], the handle is
    [(s << 56) | i], and extracting its top byte and its low 32 bits
    gives [(s, i)] back. *)
Theorem handle_roundtrip_positioned (s i : Z) :
  0 <= s < 256 -> 0 <= i < 2 ^ 32 ->
  kcov_remote_handle (Z.shiftl s 56) i = Z.lor (Z.shiftl s 56) i /\
  decode (kcov_remote_handle (Z.shiftl s 56) i) = (s, i).
Proof.
  intros Hs Hi.
  rewrite (handle_accepts _ _ (positioned_low_bits s) Hi).
  split; [reflexivity | apply decode_positioned; assumption].
Qed.

(** The scenario of C3 at the USB subsystem and the largest instance. *)
Lemma handle_roundtrip_positioned_witness :
  kcov_remote_handle KCOV_SUBSYSTEM_USB 0xFFFFFFFF
    = Z.lor (Z.shiftl 1 56) 0xFFFFFFFF /\
  decode (kcov_remote_handle KCOV_SUBSYSTEM_USB 0xFFFFFFFF)
    = (1, 0xFFFFFFFF).
Proof.
  apply (handle_roundtrip_positioned 1 0xFFFFFFFF); lia.
Defined.

(** C8, as the claim words it, fails: [KCOV_SUBSYSTEM_USB] is
    [1 << 56], a subsystem argument well above 256, and the handle built
    from it is not the sentinel. *)
Lemma handle_large_subsystem_accepted :
  KCOV_SUBSYSTEM_USB >= 256 /\
  kcov_remote_handle KCOV_SUBSYSTEM_USB 0 = 2 ^ 56 /\
  kcov_remote_handle KCOV_SUBSYSTEM_USB 0 <> 0.
Proof.
  repeat split; vm_compute; discriminate.
Qed.

(** C8, amended: for 64-bit arguments, the handle is the sentinel 0
    whenever the subsystem has a bit set below the top byte (its low 56
    bits are not all clear) or the instance is [2^32] or more. *)
Theorem handle_sentinel (subsys inst : Z) :
  is_u64 subsys -> is_u64 inst ->
  subsys mod 2 ^ 56 <> 0 \/ 2 ^ 32 <= inst ->
  kcov_remote_handle subsys inst = 0.
Proof.
  intros Hs Hi H. unfold kcov_remote_handle.
  rewrite subsys_test.
  destruct (Z.eqb_spec (subsys mod 2 ^ 56) 0) as [E | E]; [| reflexivity].
  destruct H as [H | H]; [contradiction |].
  destruct (Z.eqb_spec (Z.land inst (not64 KCOV_INSTANCE_MASK)) 0) as [F | F];
    [| reflexivity].
  exfalso. apply (inst_test_large inst); [split; [exact H | apply Hi] | exact F].
Qed.

(** The scenario [encode(256, 0)] and an instance of 33 bits. *)
Lemma handle_sentinel_witness :
  kcov_remote_handle 256 0 = 0 /\
  kcov_remote_handle KCOV_SUBSYSTEM_USB (2 ^ 32) = 0.
Proof.
  split.
  - apply handle_sentinel; unfold is_u64; [lia | lia | left; vm_compute; discriminate].
  - apply handle_sentinel; unfold is_u64;
      [vm_compute; split; [discriminate | reflexivity] | lia | right; lia].
Defined.

End Handle.

(* ================================================================= *)
(** ** Layout of the remote-enable control structure *)

Module Layout.

(** A C object type, as far as layout goes: its size and its alignment,
    in bytes. *)
Record ctype : Type := mk_ctype { sizeof : Z; alignof : Z }.

(** The targets the executor is built for differ in the alignment of a
    64-bit integer inside a structure: 4 bytes on i386, 8 bytes where it
    is naturally aligned. *)
Inductive abi : Type := ABI_i386 | ABI_natural64.

(** [unsigned] *)
Definition c_unsigned : ctype := mk_ctype 4 4.

(** [uint64] *)
Definition c_uint64 (t : abi) : ctype :=
  mk_ctype 8 (match t with ABI_i386 => 4 | ABI_natural64 => 8 end).

(** [T name[n]] *)
Definition c_array (t : ctype) (n : Z) : ctype :=
  mk_ctype (n * sizeof t) (alignof t).

(** A structure declaration: its members in order and its attributes
    ([packed], [aligned(n)]). *)
Record struct_decl : Type := mk_struct {
  members : list ctype;
  attr_packed : bool;
  attr_aligned : option Z
}.

(** The least multiple of [a] that is at least [off]. *)
Definition align_up (off a : Z) : Z := (off + a - 1) / a * a.

(** The alignment a member is placed at: 1 in a packed structure. *)
Definition member_align (d : struct_decl) (t : ctype) : Z :=
  if attr_packed d then 1 else alignof t.

(** Members are laid out in order, each at the next offset that its
    alignment allows; the pair is (end of the last member, largest member
    alignment). *)
Definition place (d : struct_decl) (st : Z * Z) (t : ctype) : Z * Z :=
  let a := member_align d t in
  (align_up (fst st) a + sizeof t, Z.max (snd st) a).

(** The type a declaration defines: [aligned(n)] raises the alignment to
    at least [n], and the size is rounded up to the alignment. *)
Definition struct_type (d : struct_decl) : ctype :=
  let st := fold_left (place d) (members d) (0, 1) in
  let a := match attr_aligned d with
           | Some n => Z.max (snd st) n
           | None => snd st
           end in
  mk_ctype (align_up (fst st) a) a.

(** [[
    struct uint64_aligned64 {
      uint64 v;
    } __attribute__((aligned(8)));
    ]] *)
Definition uint64_aligned64 (t : abi) : ctype :=
  struct_type (mk_struct [c_uint64 t] false (Some 8)).

(** [[
    struct uint64_aligned32 {
      uint64 v;
    } __attribute__((packed, aligned(4)));
    ]] *)
Definition uint64_aligned32 (t : abi) : ctype :=
  struct_type (mk_struct [c_uint64 t] true (Some 4)).

(** [[
    template <typename kernel_u64_t, int N> struct kcov_remote_arg {
      unsigned trace_mode;
      unsigned area_size;
      unsigned num_handles;
      kernel_u64_t common_handle;
      kernel_u64_t handles[N];
    };
    ]] *)
Definition kcov_remote_arg (kernel_u64_t : ctype) (N : Z) : ctype :=
  struct_type
    (mk_struct [c_unsigned; c_unsigned; c_unsigned;
                kernel_u64_t; c_array kernel_u64_t N] false None).

(** [typedef kcov_remote_arg<uint64_aligned32, 0> kcov_remote_arg32;] *)
Definition kcov_remote_arg32 (t : abi) : ctype :=
  kcov_remote_arg (uint64_aligned32 t) 0.

(** [typedef kcov_remote_arg<uint64_aligned64, 0> kcov_remote_arg64;] *)
Definition kcov_remote_arg64 (t : abi) : ctype :=
  kcov_remote_arg (uint64_aligned64 t) 0.

(** The two 64-bit member types do not depend on the target. *)
Lemma uint64_aligned32_type (t : abi) : uint64_aligned32 t = mk_ctype 8 4.
Proof. destruct t; reflexivity. Qed.

Lemma uint64_aligned64_type (t : abi) : uint64_aligned64 t = mk_ctype 8 8.
Proof. destruct t; reflexivity. Qed.

(** With [N] handles the narrow structure takes [20 + 8 N] bytes and the
    wide one [24 + 8 N]. *)
Lemma kcov_remote_arg_sizes (t : abi) (N : Z) :
  0 <= N ->
  sizeof (kcov_remote_arg (uint64_aligned32 t) N) = 20 + 8 * N /\
  sizeof (kcov_remote_arg (uint64_aligned64 t) N) = 24 + 8 * N.
Proof.
  intros HN. rewrite uint64_aligned32_type, uint64_aligned64_type.
  unfold kcov_remote_arg, struct_type, place, member_align, align_up, c_array.
  cbn [fold_left members attr_packed attr_aligned sizeof alignof
       c_unsigned fst snd].
  change (Z.max (Z.max (Z.max (Z.max (Z.max 1 4) 4) 4) 4) 4) with 4.
  change (Z.max (Z.max (Z.max (Z.max (Z.max 1 4) 4) 4) 8) 8) with 8.
  change ((0 + 4 - 1) / 4 * 4 + 4) with 4.
  change ((4 + 4 - 1) / 4 * 4 + 4) with 8.
  change ((8 + 4 - 1) / 4 * 4 + 4) with 12.
  change ((12 + 4 - 1) / 4 * 4 + 8) with 20.
  change ((12 + 8 - 1) / 8 * 8 + 8) with 24.
  split.
  - replace (20 + 4 - 1) with (5 * 4 + 3) by lia.
    rewrite Z.div_add_l, Z.mul_add_distr_r by lia.
    change (3 / 4 * 4) with 0.
    replace (5 * 4 + 0 + N * 8 + 4 - 1) with ((5 + 2 * N) * 4 + 3) by lia.
    rewrite Z.div_add_l by lia. change (3 / 4) with 0. lia.
  - replace (24 + 8 - 1) with (3 * 8 + 7) by lia.
    rewrite Z.div_add_l, Z.mul_add_distr_r by lia.
    change (7 / 8 * 8) with 0.
    replace (3 * 8 + 0 + N * 8 + 8 - 1) with ((3 + N) * 8 + 7) by lia.
    rewrite Z.div_add_l by lia. change (7 / 8) with 0. lia.
Qed.

(** C9: on either target the narrow control structure with no extra
    handles has size 20 and the wide one has size 24, as the two
    [typedef char ..._size[sizeof(...) == ... ? 1 : -1]] checks of the
    source require. *)
Theorem kcov_remote_arg_sizeof (t : abi) :
  sizeof (kcov_remote_arg32 t) = 20 /\ sizeof (kcov_remote_arg64 t) = 24.
Proof.
  destruct t; split; reflexivity.
Qed.

End Layout.

(* ================================================================= *)
(** ** Calls into the operating system *)

(** What the executor asks of the operating system, with the result it
    got.  [debug] output is not part of the model. *)
Inductive event : Type :=
| EvOpen (path : string) (result : Z)
| EvRead (fd count result : Z)
| EvClose (fd : Z)
| EvFopen (path mode : string) (opened : bool)
| EvFclose
| EvFseekEnd
| EvFtell (result : Z)
| EvDup2 (oldfd newfd result : Z)
| EvSystem (command : string) (result : Z)
| EvMmap (length fd result : Z)
| EvSyscall (nr : Z) (args : list Z)
| EvCall (args : list Z).

(* ================================================================= *)
(** ** The kernel bitness detector *)

Module Bitness.

(** What [/proc/kallsyms] answers: the descriptor [open] returns ([-1]
    when it fails) and the bytes [read] delivers when asked for 16
    ([None] when it fails; fewer than 16 bytes on a short read). *)
Record kallsyms_env : Type := mk_kallsyms {
  ks_open : Z;
  ks_read : option (list ascii)
}.

(** [sizeof(buf)] for [char buf[16]]. *)
Definition buf_size : Z := 16.

(** The value [read(fd, buf, sizeof(buf))] returns. *)
Definition read_result (env : kallsyms_env) : Z :=
  match ks_read env with
  | None => -1
  | Some bytes => Z.of_nat (List.length (firstn 16 bytes))
  end.

(** [buf[i]] after the read. *)
Definition buf_at (env : kallsyms_env) (i : nat) : ascii :=
  match ks_read env with
  | None => zero
  | Some bytes => nth i (firstn 16 bytes) zero
  end.

(** [c == ' ' || c == '\t'] *)
Definition is_separator (c : ascii) : bool :=
  Ascii.eqb c " " || Ascii.eqb c "009".

(** [[
    static bool detect_kernel_bitness() {
      if (sizeof(void * ) == 8)
        return true;
      bool wide = true;
      int fd = open("/proc/kallsyms", O_RDONLY);
      if (fd != -1) {
        char buf[16];
        if (read(fd, buf, sizeof(buf)) == sizeof(buf) &&
            (buf[8] == ' ' || buf[8] == '\t'))
          wide = false;
        close(fd);
      }
      debug("detected %d-bit kernel\n", wide ? 64 : 32);
      return wide;
    }
    ]]
    The result is paired with the calls made. *)
Definition detect_kernel_bitness (sizeof_ptr : Z) (env : kallsyms_env)
  : bool * list event :=
  if sizeof_ptr =? 8 then (true, [])
  else
    let fd := ks_open env in
    if negb (fd =? -1) then
      let n := read_result env in
      let wide :=
        if (n =? buf_size) && is_separator (buf_at env 8) then false
        else true in
      (wide, [EvOpen "/proc/kallsyms" fd; EvRead fd buf_size n; EvClose fd])
    else (true, [EvOpen "/proc/kallsyms" fd]).

(** The symbol table was opened, the whole 16-byte prefix was read and
    its byte 8, the one after eight address characters, is a space or a
    tab. *)
Definition narrow_kallsyms (env : kallsyms_env) : Prop :=
  ks_open env <> -1 /\
  exists bytes,
    ks_read env = Some bytes /\
    (16 <= List.length bytes)%nat /\
    (nth 8 bytes zero = " "%char \/ nth 8 bytes zero = "009"%char).

Lemma is_separator_spec (c : ascii) :
  is_separator c = true <-> c = " "%char \/ c = "009"%char.
Proof.
  unfold is_separator. rewrite orb_true_iff, !Ascii.eqb_eq. reflexivity.
Qed.

Lemma firstn_full_length {A} (l : list A) :
  Z.of_nat (List.length (firstn 16 l)) = 16 <-> (16 <= List.length l)%nat.
Proof.
  rewrite length_firstn. lia.
Qed.

Lemma nth_firstn_8 {A} (l : list A) (d : A) :
  (16 <= List.length l)%nat -> nth 8 (firstn 16 l) d = nth 8 l d.
Proof.
  intros H. rewrite <- (firstn_skipn 16 l) at 2.
  rewrite app_nth1; [reflexivity |]. rewrite length_firstn. lia.
Qed.

(** The test of the inner [if], read off the environment. *)
Lemma narrow_test (env : kallsyms_env) :
  ks_open env <> -1 ->
  ((read_result env =? buf_size) && is_separator (buf_at env 8) = true
   <-> narrow_kallsyms env).
Proof.
  intros Hfd. unfold narrow_kallsyms, read_result, buf_at, buf_size.
  rewrite andb_true_iff, Z.eqb_eq, is_separator_spec.
  destruct (ks_read env) as [bytes |].
  - rewrite firstn_full_length. split.
    + intros [Hlen Hsep]. split; [assumption |]. exists bytes.
      rewrite <- (nth_firstn_8 bytes zero Hlen). auto.
    + intros [_ [bs [E [Hlen Hsep]]]]. injection E as <-.
      rewrite (nth_firstn_8 bytes zero Hlen). auto.
  - split.
    + intros [H _]. discriminate.
    + intros [_ [bs [E _]]]. discriminate.
Qed.

(** C5: an executor with 8-byte pointers answers 64-bit and makes no
    call at all; any other executor answers 32-bit exactly when the
    symbol table opens, the 16-byte prefix is read in full and its byte 8
    is the separator (a space or a tab after eight address characters),
    and answers 64-bit in every other case, an unreadable symbol table
    included. *)
Theorem detect_kernel_bitness_spec (sizeof_ptr : Z) (env : kallsyms_env) :
  detect_kernel_bitness 8 env = (true, []) /\
  (fst (detect_kernel_bitness sizeof_ptr env) = false
   <-> sizeof_ptr <> 8 /\ narrow_kallsyms env) /\
  (fst (detect_kernel_bitness sizeof_ptr env) = true
   <-> ~ (sizeof_ptr <> 8 /\ narrow_kallsyms env)).
Proof.
  assert (Hfalse : fst (detect_kernel_bitness sizeof_ptr env) = false
                   <-> sizeof_ptr <> 8 /\ narrow_kallsyms env).
  { unfold detect_kernel_bitness.
    destruct (Z.eqb_spec sizeof_ptr 8) as [E8 | N8]; cbn [fst].
    - split; [discriminate | intros [H _]; contradiction].
    - destruct (Z.eqb_spec (ks_open env) (-1)) as [Efd | Nfd]; cbn [negb fst].
      + split; [discriminate |].
        intros [_ [Hopen _]]. contradiction.
      + pose proof (narrow_test env Nfd) as Ht.
        destruct ((read_result env =? buf_size)
                  && is_separator (buf_at env 8)).
        * split; [intros _ | reflexivity].
          split; [assumption | apply Ht; reflexivity].
        * split; [discriminate |].
          intros [_ Hn]. apply Ht in Hn. discriminate. }
  split; [reflexivity |]. split; [exact Hfalse |].
  rewrite <- Hfalse.
  destruct (fst (detect_kernel_bitness sizeof_ptr env)); split;
    congruence.
Qed.

(** A 32-bit executor in front of the first line of a 32-bit kernel's
    symbol table, and in front of a 64-bit kernel's. *)
Example detect_kernel_bitness_32 :
  detect_kernel_bitness 4
    (mk_kallsyms 3 (Some (list_ascii_of_string "c1000000 T _text
c10")))
  = (false, [EvOpen "/proc/kallsyms" 3; EvRead 3 16 16; EvClose 3]).
Proof. reflexivity. Qed.

Example detect_kernel_bitness_64 :
  detect_kernel_bitness 4
    (mk_kallsyms 3 (Some (list_ascii_of_string "ffffffff81000000 T _text")))
  = (true, [EvOpen "/proc/kallsyms" 3; EvRead 3 16 16; EvClose 3]).
Proof. reflexivity. Qed.

Example detect_kernel_bitness_unreadable :
  detect_kernel_bitness 4 (mk_kallsyms (-1) None)
  = (true, [EvOpen "/proc/kallsyms" (-1)]).
Proof. reflexivity. Qed.

End Bitness.

(* ================================================================= *)
(** ** The coverage engine and the syscall executor *)

Module Executor.

(** How a call of the executor ends: it returns, [fail] aborts the
    process, [exitf] ends it, or the C code has no defined behaviour (a
    null [FILE] pointer or a failed mapping is used). *)
Inductive outcome (A : Type) : Type :=
| Done (a : A)
| Failed (msg : string)
| Exited (msg : string)
| Undefined.
Arguments Done {A} a.
Arguments Failed {A} msg.
Arguments Exited {A} msg.
Arguments Undefined {A}.

(** Modelled from the spec: [fail] is declared outside this file; a fatal
    setup failure aborts the whole process immediately with a
    diagnostic, so a call of [fail] ends the run with its message. *)
Definition fail {A : Type} (msg : string) : outcome A := Failed msg.

(** Modelled from the spec: [exitf] is declared outside this file; a
    soft failure is reported and ends the current attempt. *)
Definition exitf {A : Type} (msg : string) : outcome A := Exited msg.

(** [cover_t] is declared outside this file; these are the fields the
    file uses.  [data] and [data_end] are addresses. *)
Record cover_t : Type := mk_cover {
  fd : Z;
  size : Z;
  data : Z;
  data_end : Z
}.

(** The globals the file reads and writes, the [cover_t] objects by
    address, the bytes of memory by address, and the calls made so far. *)
Record state : Type := mk_state {
  flag_coverage : bool;
  is_kernel_64_bit : bool;
  cover_size : Z;
  mmap_alloc_size : Z;
  current_cover : Z;
  covers : Z -> cover_t;
  mem : Z -> Z;
  errno : Z;
  trace : list event
}.

Definition set_cover_size (v : Z) (s : state) : state :=
  mk_state (flag_coverage s) (is_kernel_64_bit s) v (mmap_alloc_size s)
           (current_cover s) (covers s) (mem s) (errno s) (trace s).

Definition set_mmap_alloc_size (v : Z) (s : state) : state :=
  mk_state (flag_coverage s) (is_kernel_64_bit s) (cover_size s) v
           (current_cover s) (covers s) (mem s) (errno s) (trace s).

Definition set_current_cover (v : Z) (s : state) : state :=
  mk_state (flag_coverage s) (is_kernel_64_bit s) (cover_size s)
           (mmap_alloc_size s) v (covers s) (mem s) (errno s) (trace s).

Definition set_covers (v : Z -> cover_t) (s : state) : state :=
  mk_state (flag_coverage s) (is_kernel_64_bit s) (cover_size s)
           (mmap_alloc_size s) (current_cover s) v (mem s) (errno s)
           (trace s).

Definition set_mem (v : Z -> Z) (s : state) : state :=
  mk_state (flag_coverage s) (is_kernel_64_bit s) (cover_size s)
           (mmap_alloc_size s) (current_cover s) (covers s) v (errno s)
           (trace s).

Definition set_errno (v : Z) (s : state) : state :=
  mk_state (flag_coverage s) (is_kernel_64_bit s) (cover_size s)
           (mmap_alloc_size s) (current_cover s) (covers s) (mem s) v
           (trace s).

(** Appends to the log of calls. *)
Definition emit (evs : list event) (s : state) : state :=
  mk_state (flag_coverage s) (is_kernel_64_bit s) (cover_size s)
           (mmap_alloc_size s) (current_cover s) (covers s) (mem s)
           (errno s) (trace s ++ evs).

(** [cov->field = v] for the object at address [cov]. *)
Definition update_cover (cov : Z) (f : cover_t -> cover_t) (s : state)
  : state :=
  set_covers (fun p => if p =? cov then f (covers s p) else covers s p) s.

Definition with_size (v : Z) (c : cover_t) : cover_t :=
  mk_cover (fd c) v (data c) (data_end c).
Definition with_data (v : Z) (c : cover_t) : cover_t :=
  mk_cover (fd c) (size c) v (data_end c).
Definition with_data_end (v : Z) (c : cover_t) : cover_t :=
  mk_cover (fd c) (size c) (data c) v.

(** *** Memory *)

(** [*(uint64 * )addr = v], little endian. *)
Definition store_u64 (m : Z -> Z) (addr v : Z) : Z -> Z :=
  fun a =>
    if (addr <=? a) && (a <? addr + 8)
    then (v / 2 ^ (8 * (a - addr))) mod 256
    else m a.

(** [*(uint64 * )addr], little endian. *)
Definition load_u64 (m : Z -> Z) (addr : Z) : Z :=
  fold_right (fun k acc => m (addr + Z.of_nat k) + 256 * acc) 0
             (seq 0 8).

(** The live entry counter at the head of a context's buffer. *)
Definition live_counter (s : state) (cov : Z) : Z :=
  load_u64 (mem s) (data (covers s cov)).

(** Conversion of a [long] to [int]. *)
Definition to_int (x : Z) : Z := (x + 2 ^ 31) mod 2 ^ 32 - 2 ^ 31.

(** [(void * )-1] *)
Definition MAP_FAILED : Z := -1.

(** [EINVAL] of [<errno.h>] on Linux. *)
Definition EINVAL : Z := 22.

(** *** cover_reset *)

(** [*(uint64 * )cov->data = 0;] *)
Definition reset_counter (cov : Z) (s : state) : state :=
  set_mem (store_u64 (mem s) (data (covers s cov)) 0) s.

(** [[
    static void cover_reset(cover_t *cov) {
      // Callers in common_linux.h don't check this flag.
      if (!flag_coverage)
        return;
      if (cov == 0) {
        if (current_cover == 0)
          fail("cover_reset: current_cover == 0");
        cov = current_cover;
      }
      *(uint64 * )cov->data = 0;
    }
    ]] *)
Definition cover_reset (cov : Z) (s : state) : outcome state :=
  if negb (flag_coverage s) then Done s
  else if cov =? 0 then
    if current_cover s =? 0 then fail "cover_reset: current_cover == 0"
    else Done (reset_counter (current_cover s) s)
  else Done (reset_counter cov s).

(** *** cover_collect *)

(** What [/dev/cov] answers to [cover_collect]: whether [fopen] gives a
    stream, and what [ftell] returns after the seek to the end. *)
Record collect_env : Type := mk_collect_env {
  ce_fopen : bool;
  ce_ftell : Z
}.

(** [[
    static void cover_collect(cover_t *cov) {
      FILE *fp;
      int filesize;
      if ((fp=fopen("/dev/cov","r"))==NULL){
        debug("coverage file not exist\n");
      }
      fseek(fp,0,SEEK_END);
      filesize = ftell(fp);
      cov->size = filesize/32;
      debug("Rrooach executor_linux175 size = %d\n", cov->size);
    }
    ]]
    When [fopen] fails the function goes on to [fseek] on the null
    stream.  The division is C's, which truncates. *)
Definition cover_collect (env : collect_env) (cov : Z) (s : state)
  : outcome state :=
  if negb (ce_fopen env) then Undefined
  else if cov =? 0 then Undefined
  else
    let filesize := to_int (ce_ftell env) in
    Done (update_cover cov (with_size (Z.quot filesize 32))
            (emit [EvFopen "/dev/cov" "r" true; EvFseekEnd;
                   EvFtell (ce_ftell env)] s)).

(** *** cover_check *)

(** [static bool cover_check(uint32 pc) { return true; }] *)
Definition cover_check (pc : Z) : bool := true.

(** *** cover_enable *)

(** [const unsigned long KCOV_TRACE_PC = 0;] *)
Definition KCOV_TRACE_PC : Z := 0.
(** [const unsigned long KCOV_TRACE_CMP = 1;] *)
Definition KCOV_TRACE_CMP : Z := 1.

(** [[
    static void enable_remote_cover(cover_t *cov, unsigned long ioctl_cmd,
                                    unsigned int kcov_mode) {
      if (system("/root/cov"))
        exitf("remote cover enable write trace failed");
    }
    ]] *)
Definition enable_remote_cover (system_result : Z) (cov : Z) (s : state)
  : outcome state :=
  let s := emit [EvSystem "/root/cov" system_result] s in
  if negb (system_result =? 0)
  then exitf "remote cover enable write trace failed"
  else Done s.

(** [[
    static void cover_enable(cover_t *cov, bool collect_comps, bool extra) {
      unsigned int kcov_mode = collect_comps ? KCOV_TRACE_CMP : KCOV_TRACE_PC;
      if (!extra) {
        if (system("/root/cov"))
          exitf("cover enable write trace failed, mode=%d", kcov_mode);
        current_cover = cov;
        return;
      }
      if (is_kernel_64_bit)
        enable_remote_cover<uint64_aligned64>(cov, KCOV_REMOTE_ENABLE64, kcov_mode);
      else
        enable_remote_cover<uint64_aligned32>(cov, KCOV_REMOTE_ENABLE32, kcov_mode);
    }
    ]] *)
Definition cover_enable (system_result : Z) (cov : Z)
           (collect_comps extra : bool) (s : state) : outcome state :=
  if negb extra then
    let s := emit [EvSystem "/root/cov" system_result] s in
    if negb (system_result =? 0)
    then exitf "cover enable write trace failed, mode=%d"
    else Done (set_current_cover cov s)
  else if is_kernel_64_bit s then enable_remote_cover system_result cov s
  else enable_remote_cover system_result cov s.

(** *** cover_open *)

(** What the operating system answers to the calls of [cover_open], in
    the order they are made: the first [open], the [fopen] that creates
    the device file when that failed, the second [open], [dup2],
    [system] and [mmap]. *)
Record open_env : Type := mk_open_env {
  oe_open1 : Z;
  oe_fopen : bool;
  oe_open2 : Z;
  oe_dup2 : Z;
  oe_system : Z;
  oe_mmap : Z
}.

Section CoverOpen.

(** [cover_t] and [debug] are declared outside this file: the size of
    the objects [cov->data] points to, and whether [debug] evaluates its
    arguments (a function does, an empty macro does not), are left
    open. *)
Variable sizeof_data_elem : Z.
Variable debug_evaluates_args : bool.

(** [[
    if (fd == -1) {
      FILE *tmpfs = fopen("/dev/cov", "a+");
      fclose(tmpfs);
    }
    ]]
    [fclose] of a null stream has no defined behaviour. *)
Definition create_device (env : open_env) (s : state) : outcome state :=
  if oe_open1 env =? -1 then
    if oe_fopen env
    then Done (emit [EvFopen "/dev/cov" "a+" true; EvFclose] s)
    else Undefined
  else Done s.

(** [[
    cov->data = (int * )mmap(NULL, (cover_size), PROT_READ | PROT_WRITE,
                             MAP_SHARED, cov->fd, 0);
    for(int i = 0; i < 1000; ++i)
      debug("%d\t", cov->data[i]);
    if (cov->data == MAP_FAILED)
      fail("cover mmap failed");
    cov->data_end = cov->data + cover_size;
    ]]
    The loop reads through [cov->data] before the mapping is checked. *)
Definition map_buffer (env : open_env) (cov : Z) (s : state)
  : outcome state :=
  let p := oe_mmap env in
  let s := emit [EvMmap (cover_size s) (fd (covers s cov)) p] s in
  let s := update_cover cov (with_data p) s in
  if data (covers s cov) =? MAP_FAILED then
    if debug_evaluates_args then Undefined else fail "cover mmap failed"
  else
    Done (update_cover cov
            (with_data_end
               (data (covers s cov) + cover_size s * sizeof_data_elem)) s).

(** [[
    static void cover_open(cover_t *cov, bool extra) {
      int fd = open("/dev/cov", O_RDWR);
      if (fd == -1) {
        FILE *tmpfs = fopen("/dev/cov", "a+");
        fclose(tmpfs);
      }
      fd = open("/dev/cov", O_RDWR);
      if (dup2(fd, cov->fd) < 0)
        fail("filed to dup2(%d, %d) cover fd", fd, cov->fd);
      close(fd);
      cover_size = 640000;
      if (system("/root/cov"))
        fail("cover init trace write failed");
      mmap_alloc_size = cover_size * (is_kernel_64_bit ? 8 : 4);
      cov->data = (int * )mmap(NULL, (cover_size), PROT_READ | PROT_WRITE,
                               MAP_SHARED, cov->fd, 0);
      for(int i = 0; i < 1000; ++i)
        debug("%d\t", cov->data[i]);
      if (cov->data == MAP_FAILED)
        fail("cover mmap failed");
      cov->data_end = cov->data + cover_size;
    }
    ]] *)
Definition cover_open (env : open_env) (cov : Z) (extra : bool) (s : state)
  : outcome state :=
  if cov =? 0 then Undefined
  else
    let s := emit [EvOpen "/dev/cov" (oe_open1 env)] s in
    match create_device env s with
    | Done s =>
        let fd2 := oe_open2 env in
        let s := emit [EvOpen "/dev/cov" fd2;
                       EvDup2 fd2 (fd (covers s cov)) (oe_dup2 env)] s in
        if oe_dup2 env <? 0 then fail "filed to dup2(%d, %d) cover fd"
        else
          let s := emit [EvClose fd2] s in
          let s := set_cover_size 640000 s in
          let s := emit [EvSystem "/root/cov" (oe_system env)] s in
          if negb (oe_system env =? 0)
          then fail "cover init trace write failed"
          else
            let s :=
              set_mmap_alloc_size
                (cover_size s * (if is_kernel_64_bit s then 8 else 4)) s in
            map_buffer env cov s
    | Failed msg => Failed msg
    | Exited msg => Exited msg
    | Undefined => Undefined
    end.

End CoverOpen.

(** The lengths of the mappings requested in a log of calls. *)
Definition mmap_lengths (evs : list event) : list Z :=
  flat_map (fun e => match e with
                     | EvMmap len _ _ => [len]
                     | _ => []
                     end) evs.

(** *** execute_syscall *)

(** [call_t] is declared outside this file; these are the fields the
    file uses.  A custom routine takes its nine arguments and the state
    of the process and gives its result and the state it leaves. *)
Record call_t : Type := mk_call {
  name : string;
  sys_nr : Z;
  call : option (list Z -> state -> Z * state)
}.

(** [a[0], ..., a[n-1]] *)
Definition args_upto (n : nat) (a : nat -> Z) : list Z := map a (seq 0 n).

Section ExecuteSyscall.

(** The kernel call gate [syscall(nr, a0, ..., a5)]: the result, and the
    state the call leaves, [errno] included. *)
Variable syscall : Z -> list Z -> state -> Z * state.

(** [[
    static intptr_t execute_syscall(const call_t *c, intptr_t a[kMaxArgs]) {
      if (c->call) {
        intptr_t temp =
            c->call(a[0], a[1], a[2], a[3], a[4], a[5], a[6], a[7], a[8]);
        return temp;
      }
      intptr_t res = syscall(c->sys_nr, a[0], a[1], a[2], a[3], a[4], a[5]);
      if (!flag_coverage && res == -1 && !strcmp(c->name, "prctl"))
        errno = EINVAL;
      return res;
    }
    ]] *)
Definition execute_syscall (c : call_t) (a : nat -> Z) (s : state)
  : Z * state :=
  match call c with
  | Some routine =>
      routine (args_upto 9 a) (emit [EvCall (args_upto 9 a)] s)
  | None =>
      let '(res, s1) :=
        syscall (sys_nr c) (args_upto 6 a)
                (emit [EvSyscall (sys_nr c) (args_upto 6 a)] s) in
      if negb (flag_coverage s1) && (res =? -1) && (name c =? "prctl")%string
      then (res, set_errno EINVAL s1)
      else (res, s1)
  end.

End ExecuteSyscall.

(** *** States to run the code on *)

(** A context whose descriptor is 30 and whose buffer starts at address
    4096, and a process that holds one such context at every address. *)
Definition sample_cover : cover_t := mk_cover 30 0 4096 0.

Definition sample_state (coverage : bool) (current : Z) : state :=
  mk_state coverage true 0 30000 current (fun _ => sample_cover)
           (fun _ => 0) 0 [].

(** Modelled from the spec: the kernel's side of the buffer is not in
    this file.  The first machine word of the buffer is a live entry
    counter, which the kernel increments on a trace event (the entries
    follow it). *)
Definition kernel_trace_event (cov : Z) (s : state) : state :=
  set_mem (store_u64 (mem s) (data (covers s cov)) (live_counter s cov + 1))
          s.

(** [k] holds of the state a call returns with; it fails on any other
    outcome. *)
Definition returns_with (o : outcome state) (k : state -> Prop) : Prop :=
  match o with
  | Done s => k s
  | _ => False
  end.

(** *** Memory lemmas *)

Lemma store_u64_inside (m : Z -> Z) (addr v : Z) (k : Z) :
  0 <= k < 8 ->
  store_u64 m addr v (addr + k) = (v / 2 ^ (8 * k)) mod 256.
Proof.
  intros Hk. unfold store_u64.
  replace ((addr <=? addr + k) && (addr + k <? addr + 8)) with true.
  - replace (addr + k - addr) with k by lia. reflexivity.
  - symmetry. apply andb_true_iff. split; [apply Z.leb_le | apply Z.ltb_lt]; lia.
Qed.

(** After the store of [cover_reset] the counter reads 0. *)
Lemma load_store_u64_zero (m : Z -> Z) (addr : Z) :
  load_u64 (store_u64 m addr 0) addr = 0.
Proof.
  unfold load_u64. cbn [seq fold_right].
  rewrite !store_u64_inside by (cbn; lia).
  rewrite !Z.div_0_l by (apply Z.pow_nonzero; cbn; lia).
  reflexivity.
Qed.

Lemma reset_counter_reads_zero (cov : Z) (s : state) :
  live_counter (reset_counter cov s) cov = 0.
Proof. apply load_store_u64_zero. Qed.

(** *** Claims about cover_reset *)

(** C4, as the claim words it, fails: with whole-run coverage off,
    [cover_reset] returns at its first test, before it looks for a
    context, so a call with no context argument and no active context
    returns normally and leaves the state as it was. *)
Lemma cover_reset_without_coverage_returns :
  current_cover (sample_state false 0) = 0 /\
  cover_reset 0 (sample_state false 0) = Done (sample_state false 0) /\
  (forall msg, cover_reset 0 (sample_state false 0) <> Failed msg).
Proof.
  repeat split. intros msg H. discriminate H.
Qed.

(** C4, amended: when whole-run coverage is on, a reset with no context
    argument while no context is active fails fatally, with the
    diagnostic of [fail]; when it is off, the same call returns and
    changes nothing. *)
Theorem cover_reset_no_context (s : state) :
  current_cover s = 0 ->
  (flag_coverage s = true ->
   cover_reset 0 s = Failed "cover_reset: current_cover == 0") /\
  (flag_coverage s = false -> cover_reset 0 s = Done s).
Proof.
  intros Hcur. unfold cover_reset, fail. rewrite Hcur.
  split; intros Hflag; rewrite Hflag; reflexivity.
Qed.

Lemma cover_reset_no_context_witness :
  cover_reset 0 (sample_state true 0)
    = Failed "cover_reset: current_cover == 0" /\
  cover_reset 0 (sample_state false 0) = Done (sample_state false 0).
Proof.
  split.
  - apply (cover_reset_no_context (sample_state true 0)); reflexivity.
  - apply (cover_reset_no_context (sample_state false 0)); reflexivity.
Defined.

(** *** Claims about cover_collect *)

(** C1, as the claim words it, fails: [cover_collect] never reads the
    buffer.  After a reset and one trace event the live counter reads 1,
    but with an empty [/dev/cov] the collected size is 0. *)
Lemma cover_collect_ignores_counter :
  returns_with (cover_reset 8 (sample_state true 8)) (fun s1 =>
    live_counter s1 8 = 0 /\
    live_counter (kernel_trace_event 8 s1) 8 = 1 /\
    returns_with
      (cover_collect (mk_collect_env true 0) 8 (kernel_trace_event 8 s1))
      (fun s2 =>
         live_counter s2 8 = 1 /\
         size (covers s2 8) = 0 /\
         size (covers s2 8) <> live_counter s2 8 /\
         ~ size (covers s2 8) >= 1)).
Proof.
  cbn. repeat split; try (vm_compute; congruence).
Qed.

Lemma to_int_small (x : Z) : 0 <= x < 2 ^ 31 -> to_int x = x.
Proof.
  intros H. unfold to_int. rewrite Z.mod_small; lia.
Qed.

(** C1, amended: when [/dev/cov] can be opened and its size [n] fits an
    [int], [cover_collect] stores [n / 32] (rounded down) as the size of
    a context, whatever the buffer holds; the size is at least 1 exactly
    when the file has 32 bytes or more.  The call only opens the file,
    seeks and asks for the position: it makes no call that disables
    tracing, and leaves memory, the active context and the other fields
    of the context as they were. *)
Theorem cover_collect_size (env : collect_env) (cov : Z) (s : state) :
  cov <> 0 -> ce_fopen env = true -> 0 <= ce_ftell env < 2 ^ 31 ->
  returns_with (cover_collect env cov s) (fun s' =>
    size (covers s' cov) = ce_ftell env / 32 /\
    (size (covers s' cov) >= 1 <-> ce_ftell env >= 32) /\
    trace s' = trace s ++ [EvFopen "/dev/cov" "r" true; EvFseekEnd;
                           EvFtell (ce_ftell env)] /\
    mem s' = mem s /\
    current_cover s' = current_cover s /\
    fd (covers s' cov) = fd (covers s cov) /\
    data (covers s' cov) = data (covers s cov) /\
    data_end (covers s' cov) = data_end (covers s cov)).
Proof.
  intros Hcov Hopen Hsize. unfold cover_collect.
  rewrite Hopen. cbn [negb].
  destruct (Z.eqb_spec cov 0) as [E | _]; [contradiction |].
  cbn [returns_with update_cover set_covers covers emit trace mem
       current_cover].
  rewrite Z.eqb_refl. cbn [with_size size fd data data_end].
  rewrite to_int_small by assumption.
  rewrite Z.quot_div_nonneg by lia.
  repeat split; try reflexivity.
  - intros H. assert (Hq : 1 <= ce_ftell env / 32) by lia.
    pose proof (Z.mul_div_le (ce_ftell env) 32 ltac:(lia)). lia.
  - intros H. assert (32 / 32 <= ce_ftell env / 32)
      by (apply Z.div_le_mono; lia).
    change (32 / 32) with 1 in *. lia.
Qed.

Lemma cover_collect_size_witness :
  returns_with
    (cover_collect (mk_collect_env true 100) 8 (sample_state true 8))
    (fun s' =>
       size (covers s' 8) = 100 / 32 /\
       (size (covers s' 8) >= 1 <-> 100 >= 32) /\
       trace s' = [] ++ [EvFopen "/dev/cov" "r" true; EvFseekEnd;
                         EvFtell 100] /\
       mem s' = mem (sample_state true 8) /\
       current_cover s' = 8 /\
       fd (covers s' 8) = 30 /\
       data (covers s' 8) = 4096 /\
       data_end (covers s' 8) = 0).
Proof.
  apply (cover_collect_size (mk_collect_env true 100) 8
                            (sample_state true 8));
    [discriminate | reflexivity | cbn; lia].
Defined.

(** *** Claims about cover_check *)

(** C10: [cover_check] accepts every program counter, so filtering a
    list of recorded addresses with it keeps them all. *)
Theorem cover_check_accepts_all (pc : Z) (pcs : list Z) :
  cover_check pc = true /\ filter cover_check pcs = pcs.
Proof.
  split; [reflexivity |].
  induction pcs as [| p rest IH]; [reflexivity |].
  cbn [filter cover_check]. f_equal. exact IH.
Qed.

(** *** Claims about cover_open *)

Lemma mmap_lengths_app (l1 l2 : list event) :
  mmap_lengths (l1 ++ l2) = mmap_lengths l1 ++ mmap_lengths l2.
Proof. apply flat_map_app. Qed.

(** What [create_device] leaves alone. *)
Lemma create_device_keeps (env : open_env) (s s1 : state) :
  create_device env s = Done s1 ->
  mmap_lengths (trace s1) = mmap_lengths (trace s) /\
  is_kernel_64_bit s1 = is_kernel_64_bit s /\
  covers s1 = covers s.
Proof.
  unfold create_device.
  destruct (oe_open1 env =? -1).
  - destruct (oe_fopen env); [| discriminate].
    intros H. injection H as <-. cbn [emit trace is_kernel_64_bit covers].
    rewrite mmap_lengths_app. cbn. rewrite app_nil_r. auto.
  - intros H. injection H as <-. auto.
Qed.

(** What a mapping step that returns has done. *)
Lemma map_buffer_done (elem : Z) (dbg : bool) (env : open_env)
      (cov : Z) (s s' : state) :
  map_buffer elem dbg env cov s = Done s' ->
  mmap_lengths (trace s') = mmap_lengths (trace s) ++ [cover_size s] /\
  cover_size s' = cover_size s /\
  mmap_alloc_size s' = mmap_alloc_size s /\
  data (covers s' cov) = oe_mmap env /\
  data_end (covers s' cov) = oe_mmap env + cover_size s * elem.
Proof.
  unfold map_buffer.
  cbn [update_cover set_covers covers emit cover_size].
  rewrite Z.eqb_refl. cbn [with_data data].
  destruct (oe_mmap env =? MAP_FAILED).
  - destruct dbg; discriminate.
  - intros H. injection H as <-.
    cbn [update_cover set_covers emit trace cover_size mmap_alloc_size
         covers].
    rewrite !Z.eqb_refl. cbn [with_data_end with_data data data_end].
    rewrite mmap_lengths_app. cbn. auto.
Qed.

(** C2, what the code does: every [cover_open] that returns has asked
    [mmap] for one mapping of [cover_size = 640000] bytes, on a 64-bit
    and on a 32-bit kernel alike.  The product of the capacity and the
    entry width (8 or 4) is computed, but only stored in
    [mmap_alloc_size]; the end of the buffer is [cover_size] objects
    past its start. *)
Theorem cover_open_mapping (elem : Z) (dbg : bool) (env : open_env)
        (cov : Z) (extra : bool) (s s' : state) :
  cover_open elem dbg env cov extra s = Done s' ->
  mmap_lengths (trace s') = mmap_lengths (trace s) ++ [640000] /\
  cover_size s' = 640000 /\
  mmap_alloc_size s' = 640000 * (if is_kernel_64_bit s then 8 else 4) /\
  data (covers s' cov) = oe_mmap env /\
  data_end (covers s' cov) = oe_mmap env + 640000 * elem.
Proof.
  unfold cover_open.
  destruct (cov =? 0); [discriminate |].
  destruct (create_device env (emit [EvOpen "/dev/cov" (oe_open1 env)] s))
    as [s1 | | |] eqn:Hdev; try discriminate.
  apply create_device_keeps in Hdev. destruct Hdev as [Htr [H64 Hcov]].
  destruct (oe_dup2 env <? 0); [discriminate |].
  destruct (oe_system env =? 0); cbn [negb]; [| discriminate].
  intros Hmap. apply map_buffer_done in Hmap.
  cbn [set_mmap_alloc_size set_cover_size emit trace cover_size
       mmap_alloc_size is_kernel_64_bit] in Hmap.
  destruct Hmap as [Hlen [Hsz [Halloc [Hdata Hend]]]].
  repeat split; try assumption.
  - rewrite Hlen, !mmap_lengths_app, Htr.
    cbn [emit trace]. rewrite mmap_lengths_app. cbn.
    rewrite !app_nil_r. reflexivity.
  - rewrite Halloc, H64. reflexivity.
Qed.

(** The environment in which every call of [cover_open] succeeds and
    the buffer is mapped at address 65536. *)
Definition open_succeeds : open_env := mk_open_env 5 true 6 30 0 65536.

(** [cover_open] on a 64-bit kernel, [cov->data] pointing to 4-byte
    objects. *)
Definition opened_state : state :=
  match cover_open 4 true open_succeeds 8 false (sample_state true 0) with
  | Done s => s
  | _ => sample_state true 0
  end.

(** On a 64-bit kernel the mapping has 640000 bytes, not the 5120000
    that [mmap_alloc_size] holds. *)
Lemma cover_open_mapping_witness :
  mmap_lengths (trace opened_state) = [] ++ [640000] /\
  cover_size opened_state = 640000 /\
  mmap_alloc_size opened_state = 640000 * 8 /\
  data (covers opened_state 8) = 65536 /\
  data_end (covers opened_state 8) = 65536 + 640000 * 4.
Proof.
  apply (cover_open_mapping 4 true open_succeeds 8 false
                            (sample_state true 0) opened_state).
  reflexivity.
Defined.

(** *** Claims about execute_syscall *)

(** A call the kernel refuses: the gate returns [-1] and leaves [errno]
    at [EPERM] (1). *)
Definition refusing_gate (nr : Z) (args : list Z) (s : state) : Z * state :=
  (-1, set_errno 1 s).

(** A descriptor named [prctl] that carries a custom routine, which
    returns [-1] and leaves [errno] at [EPERM] (1). *)
Definition prctl_with_routine : call_t :=
  mk_call "prctl" 157 (Some (fun _ s => (-1, set_errno 1 s))).

(** The descriptor of the kernel's [prctl]. *)
Definition prctl_raw : call_t := mk_call "prctl" 157 None.

(** C6, as the claim words it, fails: a descriptor that carries a custom
    routine is run by that routine and returned from at once, so with
    coverage off, the name [prctl] and the result [-1], [errno] stays
    what the routine left. *)
Lemma execute_syscall_routine_not_normalized :
  flag_coverage (sample_state false 0) = false /\
  name prctl_with_routine = "prctl"%string /\
  fst (execute_syscall refusing_gate prctl_with_routine (fun _ => 0)
                       (sample_state false 0)) = -1 /\
  errno (snd (execute_syscall refusing_gate prctl_with_routine (fun _ => 0)
                              (sample_state false 0))) = 1 /\
  errno (snd (execute_syscall refusing_gate prctl_with_routine (fun _ => 0)
                              (sample_state false 0))) <> EINVAL.
Proof.
  repeat split. cbn. discriminate.
Qed.

(** C6, amended: a descriptor with a custom routine returns what the
    routine returns and leaves the state, [errno] included, as the
    routine left it.  A descriptor without one goes through the kernel
    call gate and returns its result; when coverage is off, the result is
    [-1] and the name is [prctl], [errno] is set to [EINVAL] on top of
    the state the kernel left, and in every other case that state is
    returned as it is. *)
Theorem execute_syscall_errno
        (syscall : Z -> list Z -> state -> Z * state)
        (c : call_t) (a : nat -> Z) (s : state) :
  (forall routine, call c = Some routine ->
     execute_syscall syscall c a s
       = routine (args_upto 9 a) (emit [EvCall (args_upto 9 a)] s)) /\
  (call c = None ->
   forall res s1,
     syscall (sys_nr c) (args_upto 6 a)
             (emit [EvSyscall (sys_nr c) (args_upto 6 a)] s) = (res, s1) ->
     (flag_coverage s1 = false -> res = -1 -> name c = "prctl"%string ->
      execute_syscall syscall c a s = (-1, set_errno EINVAL s1) /\
      errno (snd (execute_syscall syscall c a s)) = EINVAL) /\
     (flag_coverage s1 = true \/ res <> -1 \/ name c <> "prctl"%string ->
      execute_syscall syscall c a s = (res, s1))).
Proof.
  unfold execute_syscall. split.
  - intros routine Hc. rewrite Hc. reflexivity.
  - intros Hc res s1 Hgate. rewrite Hc, Hgate. split.
    + intros Hflag Hres Hname. subst res. rewrite Hflag, Hname.
      cbn. auto.
    + intros Hother.
      destruct (flag_coverage s1); cbn [negb andb]; [reflexivity |].
      destruct (Z.eqb_spec res (-1)) as [E | N]; cbn [andb];
        [| reflexivity].
      destruct (String.eqb_spec (name c) "prctl") as [En | Nn];
        [| reflexivity].
      destruct Hother as [H | [H | H]]; [discriminate | | ]; contradiction.
Qed.

(** The kernel's [prctl] refused with [EPERM] while coverage is off
    reports [EINVAL]; with coverage on it reports [EPERM]. *)
Lemma execute_syscall_errno_witness :
  errno (snd (execute_syscall refusing_gate prctl_raw (fun _ => 0)
                              (sample_state false 0))) = EINVAL /\
  errno (snd (execute_syscall refusing_gate prctl_raw (fun _ => 0)
                              (sample_state true 0))) = 1.
Proof.
  split.
  - apply (proj2 (execute_syscall_errno refusing_gate prctl_raw (fun _ => 0)
                    (sample_state false 0)) eq_refl (-1) _ eq_refl);
      reflexivity.
  - rewrite (proj2 (proj2 (execute_syscall_errno refusing_gate prctl_raw
                             (fun _ => 0) (sample_state true 0))
                          eq_refl (-1) _ eq_refl) (or_introl eq_refl)).
    reflexivity.
Defined.

End Executor.

(* ================================================================= *)
(** ** The termination primitive *)

Module Termination.

(** Where control is while [doexit] runs: before the [exit_group]
    request, before the initialisation of the loop, in the loop with the
    value of [i], or back in the caller. *)
Inductive point : Type :=
| AtExitGroup
| AtLoopInit
| AtLoop (i : Z)
| Returned.

(** The process is running at some point, with the calls it has made,
    or the kernel has ended it with a status. *)
Inductive config : Type :=
| Running (p : point) (calls : list event)
| Terminated (status : Z) (calls : list event).

Section Doexit.

(** [__NR_exit_group] of [<sys/syscall.h>]. *)
Variable NR_exit_group : Z.

(** The argument of [doexit]. *)
Variable status : Z.

(** Whether the [exit_group] request comes back instead of ending the
    process (a seccomp filter may prohibit it). *)
Variable exit_group_returns : bool.

(** [[
    NORETURN void doexit(int status) {
      volatile unsigned i;
      syscall(__NR_exit_group, status);
      for (i = 0;; i++) {
      }
    }
    ]]
    One step of the function: the request, the initialisation [i = 0],
    or one turn of the loop, which has no condition and an empty body and
    increments the [unsigned] counter. *)
Definition step (c : config) : config :=
  match c with
  | Running AtExitGroup calls =>
      let calls := calls ++ [EvSyscall NR_exit_group [status]] in
      if exit_group_returns then Running AtLoopInit calls
      else Terminated status calls
  | Running AtLoopInit calls => Running (AtLoop 0) calls
  | Running (AtLoop i) calls => Running (AtLoop ((i + 1) mod 2 ^ 32)) calls
  | Running Returned calls => Running Returned calls
  | Terminated st calls => Terminated st calls
  end.

(** [doexit(status)] is entered. *)
Definition doexit : config := Running AtExitGroup [].

(** The configuration after [n] steps. *)
Fixpoint run (n : nat) : config :=
  match n with
  | O => doexit
  | S k => step (run k)
  end.

(** Control is back in the caller. *)
Definition returned (c : config) : bool :=
  match c with
  | Running Returned _ => true
  | _ => false
  end.

(** The process is alive and inside [doexit]. *)
Definition spinning (c : config) : bool :=
  match c with
  | Running (AtLoop _) _ => true
  | _ => false
  end.

End Doexit.

(** A configuration [doexit] can be in: at the request with nothing
    called, or past it with exactly the request made, either terminated
    or looping. *)
Definition inside (nr status : Z) (c : config) : Prop :=
  c = Running AtExitGroup [] \/
  c = Terminated status [EvSyscall nr [status]] \/
  c = Running AtLoopInit [EvSyscall nr [status]] \/
  exists i, 0 <= i < 2 ^ 32 /\ c = Running (AtLoop i) [EvSyscall nr [status]].

Lemma step_inside (nr status : Z) (returns : bool) (c : config) :
  inside nr status c -> inside nr status (step nr status returns c).
Proof.
  intros [-> | [-> | [-> | [i [Hi ->]]]]]; cbn.
  - destruct returns; unfold inside; auto.
  - unfold inside; auto.
  - right. right. right. exists 0. split; [lia | reflexivity].
  - right. right. right. exists ((i + 1) mod 2 ^ 32).
    split; [apply Z.mod_pos_bound; lia | reflexivity].
Qed.

Lemma run_inside (nr status : Z) (returns : bool) (n : nat) :
  inside nr status (run nr status returns n).
Proof.
  induction n as [| n IH]; cbn [run].
  - left. reflexivity.
  - apply step_inside. exact IH.
Qed.

(** When the request returns, the function is in its loop from the
    second step on, and the counter has the number of turns made. *)
Lemma run_loops (nr status : Z) (n : nat) :
  run nr status true (S (S n))
  = Running (AtLoop (Z.of_nat n mod 2 ^ 32)) [EvSyscall nr [status]].
Proof.
  induction n as [| n IH].
  - reflexivity.
  - change (run nr status true (S (S (S n))))
      with (step nr status true (run nr status true (S (S n)))).
    rewrite IH. cbn [step]. do 2 f_equal.
    rewrite Z.add_mod_idemp_l by lia. f_equal. lia.
Qed.

(** C7: for every status, [doexit] never gives control back: no number
    of steps reaches the caller.  Its first step is the raw
    [exit_group] request with that status, the only call it ever makes;
    when the request ends the process it is terminated with that
    status, and when the request returns the function is in its loop
    after every further number of steps, without end. *)
Theorem doexit_never_returns (nr status : Z) (returns : bool) (n : nat) :
  returned (run nr status returns n) = false /\
  run nr status false (S n) = Terminated status [EvSyscall nr [status]] /\
  spinning (run nr status true (S (S n))) = true /\
  run nr status true (S (S n))
    = Running (AtLoop (Z.of_nat n mod 2 ^ 32)) [EvSyscall nr [status]].
Proof.
  split; [| split; [| split]].
  - destruct (run_inside nr status returns n)
      as [-> | [-> | [-> | [i [_ ->]]]]]; reflexivity.
  - induction n as [| n IH]; [reflexivity |].
    change (run nr status false (S (S n)))
      with (step nr status false (run nr status false (S n))).
    rewrite IH. reflexivity.
  - rewrite run_loops. reflexivity.
  - apply run_loops.
Qed.

End Termination.

(* ================================================================= *)
(** ** More on remote coverage handles *)

Module HandleFacts.

Import Handle.

(** Both tests of [kcov_remote_handle] pass: the subsystem has no bit
    below the top byte and the instance fits 32 bits. *)
Definition accepted (subsys inst : Z) : bool :=
  (subsys mod 2 ^ 56 =? 0) && (inst <? 2 ^ 32).

(** A subsystem without low bits and a 32-bit instance share no bit. *)
Lemma accepted_disjoint (subsys inst : Z) :
  subsys mod 2 ^ 56 = 0 -> 0 <= inst < 2 ^ 32 -> Z.land subsys inst = 0.
Proof.
  intros Hs Hi. apply Z.bits_inj'. intros n Hn.
  rewrite Z.land_spec, Z.bits_0.
  destruct (Z.ltb_spec n 56) as [Hlt | Hge].
  - rewrite <- (Z.mod_pow2_bits_low subsys 56 n) by lia.
    rewrite Hs, Z.bits_0. reflexivity.
  - replace inst with (inst mod 2 ^ 32) by (apply Z.mod_small; lia).
    rewrite Z.mod_pow2_bits_high by lia. apply andb_false_r.
Qed.

(** On accepted arguments the bitwise or is a sum. *)
Lemma handle_accepted_sum (subsys inst : Z) :
  subsys mod 2 ^ 56 = 0 -> 0 <= inst < 2 ^ 32 ->
  kcov_remote_handle subsys inst = subsys + inst.
Proof.
  intros Hs Hi. rewrite (handle_accepts subsys inst Hs Hi).
  pose proof (accepted_disjoint subsys inst Hs Hi) as Hd.
  rewrite (Z.add_nocarry_lxor subsys inst Hd). symmetry.
  apply Z.lxor_lor. exact Hd.
Qed.

(** On any other 64-bit arguments the result is the sentinel. *)
Lemma handle_rejected_zero (subsys inst : Z) :
  is_u64 inst -> accepted subsys inst = false ->
  kcov_remote_handle subsys inst = 0.
Proof.
  intros Hi Hacc. unfold kcov_remote_handle. rewrite subsys_test.
  unfold accepted in Hacc.
  destruct (Z.eqb_spec (subsys mod 2 ^ 56) 0) as [E | N]; [| reflexivity].
  cbn [andb] in Hacc. apply Z.ltb_ge in Hacc.
  destruct (Z.eqb_spec (Z.land inst (not64 KCOV_INSTANCE_MASK)) 0)
    as [F | F]; [| reflexivity].
  exfalso. apply (inst_test_large inst); [| exact F].
  split; [exact Hacc | apply Hi].
Qed.

Lemma accepted_true (subsys inst : Z) :
  is_u64 inst -> accepted subsys inst = true ->
  subsys mod 2 ^ 56 = 0 /\ 0 <= inst < 2 ^ 32.
Proof.
  intros Hi Hacc. unfold accepted in Hacc.
  apply andb_true_iff in Hacc. destruct Hacc as [H1 H2].
  apply Z.eqb_eq in H1. apply Z.ltb_lt in H2.
  split; [exact H1 | split; [apply Hi | exact H2]].
Qed.

(** A subsystem without low bits is its top byte moved into place. *)
Lemma subsys_top_byte (subsys : Z) :
  is_u64 subsys -> subsys mod 2 ^ 56 = 0 ->
  0 <= subsys / 2 ^ 56 < 256 /\ Z.shiftl (subsys / 2 ^ 56) 56 = subsys.
Proof.
  intros [Hlo Hhi] Hs.
  pose proof (Z.div_mod subsys (2 ^ 56) ltac:(lia)) as Hdm.
  rewrite Hs in Hdm. split.
  - split; [apply Z.div_pos; lia |].
    apply Z.div_lt_upper_bound; lia.
  - rewrite Z.shiftl_mul_pow2 by lia. lia.
Qed.

(** X1: on 64-bit arguments the handle is plain arithmetic: the sum of
    the two arguments when the subsystem is a multiple of [2^56] and the
    instance is below [2^32], and 0 otherwise. *)
Theorem handle_is_sum_or_zero (subsys inst : Z) :
  is_u64 subsys -> is_u64 inst ->
  kcov_remote_handle subsys inst
  = if accepted subsys inst then subsys + inst else 0.
Proof.
  intros Hs Hi. destruct (accepted subsys inst) eqn:Hacc.
  - destruct (accepted_true subsys inst Hi Hacc) as [H1 H2].
    apply handle_accepted_sum; assumption.
  - apply handle_rejected_zero; assumption.
Qed.

Lemma handle_is_sum_or_zero_witness :
  kcov_remote_handle (3 * 2 ^ 56) 77
  = if accepted (3 * 2 ^ 56) 77 then 3 * 2 ^ 56 + 77 else 0.
Proof.
  apply (handle_is_sum_or_zero (3 * 2 ^ 56) 77); unfold is_u64; lia.
Defined.

(** X2: two accepted pairs of arguments with the same handle are the
    same pair: no two registrations collide. *)
Theorem handle_injective (s1 i1 s2 i2 : Z) :
  is_u64 i1 -> is_u64 i2 ->
  accepted s1 i1 = true -> accepted s2 i2 = true ->
  kcov_remote_handle s1 i1 = kcov_remote_handle s2 i2 ->
  s1 = s2 /\ i1 = i2.
Proof.
  intros Hu1 Hu2 Ha1 Ha2.
  destruct (accepted_true s1 i1 Hu1 Ha1) as [Hs1 Hi1].
  destruct (accepted_true s2 i2 Hu2 Ha2) as [Hs2 Hi2].
  rewrite (handle_accepted_sum s1 i1 Hs1 Hi1).
  rewrite (handle_accepted_sum s2 i2 Hs2 Hi2).
  pose proof (Z.div_mod s1 (2 ^ 56) ltac:(lia)) as D1.
  pose proof (Z.div_mod s2 (2 ^ 56) ltac:(lia)) as D2.
  rewrite Hs1 in D1. rewrite Hs2 in D2.
  intros Heq. lia.
Qed.

Lemma handle_injective_witness :
  KCOV_SUBSYSTEM_USB = KCOV_SUBSYSTEM_USB /\ 5 = 5.
Proof.
  apply (handle_injective KCOV_SUBSYSTEM_USB 5 KCOV_SUBSYSTEM_USB 5);
    unfold is_u64; try lia; reflexivity.
Defined.

(** X3: a handle the function returns is made of a top byte and a low
    32-bit word only: splitting it as [decode] does and encoding the two
    parts again gives the same handle. *)
Theorem handle_reencodes (subsys inst : Z) :
  is_u64 subsys -> is_u64 inst ->
  kcov_remote_handle
    (Z.shiftl (fst (decode (kcov_remote_handle subsys inst))) 56)
    (snd (decode (kcov_remote_handle subsys inst)))
  = kcov_remote_handle subsys inst.
Proof.
  intros Hs Hi. destruct (accepted subsys inst) eqn:Hacc.
  - destruct (accepted_true subsys inst Hi Hacc) as [H1 H2].
    destruct (subsys_top_byte subsys Hs H1) as [Hb Hshift].
    rewrite (handle_accepts subsys inst H1 H2).
    rewrite <- Hshift at 1 2.
    rewrite (decode_positioned _ _ Hb H2). cbn [fst snd].
    rewrite Hshift. apply handle_accepts; assumption.
  - rewrite (handle_rejected_zero subsys inst Hi Hacc). reflexivity.
Qed.

Lemma handle_reencodes_witness :
  kcov_remote_handle
    (Z.shiftl (fst (decode (kcov_remote_handle KCOV_SUBSYSTEM_USB 9))) 56)
    (snd (decode (kcov_remote_handle KCOV_SUBSYSTEM_USB 9)))
  = kcov_remote_handle KCOV_SUBSYSTEM_USB 9.
Proof.
  apply (handle_reencodes KCOV_SUBSYSTEM_USB 9); unfold is_u64;
    [split; [discriminate | reflexivity] | lia].
Defined.

(** X4: the sentinel is ambiguous in exactly one way: on 64-bit
    arguments the result is 0 when the arguments are rejected and when
    both are 0 (the common subsystem, instance 0), and in no other
    case. *)
Theorem handle_zero_iff (subsys inst : Z) :
  is_u64 subsys -> is_u64 inst ->
  (kcov_remote_handle subsys inst = 0
   <-> accepted subsys inst = false \/ (subsys = 0 /\ inst = 0)).
Proof.
  intros Hs Hi. destruct (accepted subsys inst) eqn:Hacc.
  - destruct (accepted_true subsys inst Hi Hacc) as [H1 H2].
    rewrite (handle_accepted_sum subsys inst H1 H2).
    destruct Hs as [Hs0 _]. split.
    + intros H. right. lia.
    + intros [H | [-> ->]]; [discriminate | reflexivity].
  - rewrite (handle_rejected_zero subsys inst Hi Hacc).
    split; auto.
Qed.

Lemma handle_zero_iff_witness :
  kcov_remote_handle KCOV_SUBSYSTEM_COMMON 0 = 0
  <-> accepted KCOV_SUBSYSTEM_COMMON 0 = false
      \/ (KCOV_SUBSYSTEM_COMMON = 0 /\ 0 = 0).
Proof.
  apply (handle_zero_iff KCOV_SUBSYSTEM_COMMON 0); unfold is_u64;
    split; try discriminate; reflexivity.
Defined.

End HandleFacts.

(* ================================================================= *)
(** ** More on the layout of the control structure *)

Module LayoutFacts.

Import Layout.

(** The declaration behind [kcov_remote_arg<kernel_u64_t, N>]. *)
Definition kcov_remote_arg_decl (kernel_u64_t : ctype) (N : Z)
  : struct_decl :=
  mk_struct [c_unsigned; c_unsigned; c_unsigned;
             kernel_u64_t; c_array kernel_u64_t N] false None.

(** The offsets of the members laid out after a prefix that left the
    state [st]. *)
Fixpoint member_offsets_from (d : struct_decl) (st : Z * Z)
         (ms : list ctype) : list Z :=
  match ms with
  | [] => []
  | t :: rest =>
      align_up (fst st) (member_align d t)
      :: member_offsets_from d (place d st t) rest
  end.

(** The offset of every member of a structure, in order. *)
Definition member_offsets (d : struct_decl) : list Z :=
  member_offsets_from d (0, 1) (members d).

Lemma kcov_remote_arg_is_decl (k : ctype) (N : Z) :
  kcov_remote_arg k N = struct_type (kcov_remote_arg_decl k N).
Proof. reflexivity. Qed.

(** X5: with any number [N] of handles and on either target, the narrow
    structure has size [20 + 8 N] and alignment 4 with its members at
    offsets 0, 4, 8, 12 and 20, and the wide one has size [24 + 8 N] and
    alignment 8 with its members at 0, 4, 8, 16 and 24: the two agree on
    the three leading words, and the wide one has four bytes of padding
    before [common_handle]. *)
Theorem kcov_remote_arg_layout (t : abi) (N : Z) :
  0 <= N ->
  sizeof (kcov_remote_arg (uint64_aligned32 t) N) = 20 + 8 * N /\
  alignof (kcov_remote_arg (uint64_aligned32 t) N) = 4 /\
  member_offsets (kcov_remote_arg_decl (uint64_aligned32 t) N)
    = [0; 4; 8; 12; 20] /\
  sizeof (kcov_remote_arg (uint64_aligned64 t) N) = 24 + 8 * N /\
  alignof (kcov_remote_arg (uint64_aligned64 t) N) = 8 /\
  member_offsets (kcov_remote_arg_decl (uint64_aligned64 t) N)
    = [0; 4; 8; 16; 24].
Proof.
  intros HN.
  destruct (kcov_remote_arg_sizes t N HN) as [H32 H64].
  rewrite H32, H64.
  rewrite uint64_aligned32_type, uint64_aligned64_type.
  repeat split; reflexivity.
Qed.

Lemma kcov_remote_arg_layout_witness :
  sizeof (kcov_remote_arg (uint64_aligned32 ABI_i386) 1) = 20 + 8 * 1 /\
  alignof (kcov_remote_arg (uint64_aligned32 ABI_i386) 1) = 4 /\
  member_offsets (kcov_remote_arg_decl (uint64_aligned32 ABI_i386) 1)
    = [0; 4; 8; 12; 20] /\
  sizeof (kcov_remote_arg (uint64_aligned64 ABI_i386) 1) = 24 + 8 * 1 /\
  alignof (kcov_remote_arg (uint64_aligned64 ABI_i386) 1) = 8 /\
  member_offsets (kcov_remote_arg_decl (uint64_aligned64 ABI_i386) 1)
    = [0; 4; 8; 16; 24].
Proof.
  apply (kcov_remote_arg_layout ABI_i386 1). lia.
Defined.

End LayoutFacts.

(* ================================================================= *)
(** ** Descriptors left open by a sequence of calls *)

Module Descriptors.

(** Removes the first occurrence of a descriptor. *)
Fixpoint drop_fd (fd : Z) (fds : list Z) : list Z :=
  match fds with
  | [] => []
  | x :: rest => if x =? fd then rest else x :: drop_fd fd rest
  end.

(** The descriptors that [open] has returned and [close] has not been
    called on, after the calls [evs] made with [fds] open. *)
Fixpoint open_after (fds : list Z) (evs : list event) : list Z :=
  match evs with
  | [] => fds
  | EvOpen _ fd :: rest =>
      open_after (if fd =? -1 then fds else fds ++ [fd]) rest
  | EvClose fd :: rest => open_after (drop_fd fd fds) rest
  | _ :: rest => open_after fds rest
  end.

Lemma open_after_app (fds : list Z) (l1 l2 : list event) :
  open_after fds (l1 ++ l2) = open_after (open_after fds l1) l2.
Proof.
  revert fds. induction l1 as [| e l1 IH]; intros fds; [reflexivity |].
  destruct e; cbn [app open_after]; apply IH.
Qed.

End Descriptors.

(* ================================================================= *)
(** ** More on the bitness detector *)

Module BitnessFacts.

Import Bitness.

(** A character of a hexadecimal address. *)
Definition is_hex_digit (c : ascii) : bool :=
  let n := nat_of_ascii c in
  ((48 <=? n) && (n <=? 57) || (97 <=? n) && (n <=? 102)
   || (65 <=? n) && (n <=? 70))%nat.

Lemma hex_digit_not_separator (c : ascii) :
  is_hex_digit c = true -> is_separator c = false.
Proof.
  destruct c as [[] [] [] [] [] [] [] []]; vm_compute; congruence.
Qed.

Lemma forallb_nth {A} (f : A -> bool) (l : list A) (d : A) (n : nat) :
  forallb f l = true -> (n < List.length l)%nat -> f (nth n l d) = true.
Proof.
  intros Hall Hn. rewrite forallb_forall in Hall.
  apply Hall. apply nth_In. exact Hn.
Qed.

(** The detector's answer on an opened table whose bytes are [bytes]:
    narrow exactly when 16 bytes arrive and byte 8 is a separator. *)
Lemma detect_on_bytes (sizeof_ptr fd : Z) (bytes : list ascii) :
  sizeof_ptr <> 8 -> fd <> -1 -> (16 <= List.length bytes)%nat ->
  fst (detect_kernel_bitness sizeof_ptr (mk_kallsyms fd (Some bytes)))
  = negb (is_separator (nth 8 bytes zero)).
Proof.
  intros Hp Hfd Hlen. unfold detect_kernel_bitness.
  destruct (Z.eqb_spec sizeof_ptr 8) as [E | _]; [contradiction |].
  cbn [ks_open].
  destruct (Z.eqb_spec fd (-1)) as [E | _]; [contradiction |].
  cbn [negb fst]. unfold read_result, buf_at, buf_size. cbn [ks_read].
  rewrite (proj2 (firstn_full_length bytes) Hlen).
  rewrite (nth_firstn_8 bytes zero Hlen). cbn [Z.eqb Pos.eqb andb].
  destruct (is_separator (nth 8 bytes zero)); reflexivity.
Qed.

(** X6: a 32-bit executor in front of a symbol table whose first line
    starts with an address of hexadecimal digits answers by the length of
    that address: 32-bit when 8 digits are followed by a space or a tab
    (and 16 bytes can be read), 64-bit when the address has 16 digits or
    more. *)
Theorem detect_by_address_width
        (sizeof_ptr fd : Z) (addr rest : list ascii) (sep : ascii) :
  sizeof_ptr <> 8 -> fd <> -1 ->
  forallb is_hex_digit addr = true ->
  (List.length addr = 8%nat -> is_separator sep = true ->
   (7 <= List.length rest)%nat ->
   fst (detect_kernel_bitness sizeof_ptr
          (mk_kallsyms fd (Some (addr ++ sep :: rest)))) = false) /\
  ((16 <= List.length addr)%nat ->
   fst (detect_kernel_bitness sizeof_ptr
          (mk_kallsyms fd (Some (addr ++ sep :: rest)))) = true).
Proof.
  intros Hp Hfd Hhex. split.
  - intros Hlen Hsep Hrest.
    rewrite detect_on_bytes;
      [| assumption | assumption
       | rewrite length_app; cbn [List.length]; lia].
    rewrite app_nth2 by lia. rewrite Hlen. cbn [Nat.sub nth].
    rewrite Hsep. reflexivity.
  - intros Hlen.
    rewrite detect_on_bytes;
      [| assumption | assumption | rewrite length_app; lia].
    rewrite app_nth1 by lia.
    rewrite (hex_digit_not_separator _
               (forallb_nth is_hex_digit addr zero 8 Hhex ltac:(lia))).
    reflexivity.
Qed.

Lemma detect_by_address_width_witness :
  (List.length (list_ascii_of_string "c1000000") = 8%nat ->
   is_separator " " = true ->
   (7 <= List.length (list_ascii_of_string "T _text"))%nat ->
   fst (detect_kernel_bitness 4
          (mk_kallsyms 3
             (Some (list_ascii_of_string "c1000000" ++ " "%char
                    :: list_ascii_of_string "T _text")))) = false) /\
  ((16 <= List.length (list_ascii_of_string "c1000000"))%nat ->
   fst (detect_kernel_bitness 4
          (mk_kallsyms 3
             (Some (list_ascii_of_string "c1000000" ++ " "%char
                    :: list_ascii_of_string "T _text")))) = true).
Proof.
  apply (detect_by_address_width 4 3 (list_ascii_of_string "c1000000")
           (list_ascii_of_string "T _text") " "%char);
    [discriminate | discriminate | reflexivity].
Defined.

(** X7: the detector leaves no descriptor behind: whatever the executor
    and whatever the symbol table answers, the calls it makes close every
    descriptor they open, and [read] is asked for 16 bytes at most
    once. *)
Theorem detect_closes_what_it_opens (sizeof_ptr : Z) (env : kallsyms_env) :
  Descriptors.open_after [] (snd (detect_kernel_bitness sizeof_ptr env))
    = [] /\
  (List.length
     (filter (fun e => match e with EvRead _ _ _ => true | _ => false end)
             (snd (detect_kernel_bitness sizeof_ptr env))) <= 1)%nat /\
  (forall fd n r,
     In (EvRead fd n r) (snd (detect_kernel_bitness sizeof_ptr env)) ->
     n = 16 /\ fd = ks_open env /\ fd <> -1).
Proof.
  unfold detect_kernel_bitness.
  destruct (sizeof_ptr =? 8).
  - cbn. repeat split; try lia; contradiction.
  - destruct (Z.eqb_spec (ks_open env) (-1)) as [E | N]; cbn [negb snd].
    + rewrite E. cbn. repeat split; try lia;
        destruct H as [H | []]; discriminate H.
    + cbn [Descriptors.open_after filter List.length].
      destruct (Z.eqb_spec (ks_open env) (-1)) as [E | _];
        [contradiction |].
      cbn [app Descriptors.drop_fd]. rewrite Z.eqb_refl.
      repeat split; try lia;
        destruct H as [H | [H | [H | []]]]; try discriminate H;
        injection H as <- <- <-; auto.
Qed.

End BitnessFacts.

(* ================================================================= *)
(** ** More on the coverage engine *)

Module CoverFacts.

Import Executor.

(** [static void cover_protect(cover_t *cov) {}] *)
Definition cover_protect (cov : Z) (s : state) : state := s.

(** [static void cover_unprotect(cover_t *cov) {}] *)
Definition cover_unprotect (cov : Z) (s : state) : state := s.

(** The context [cover_reset] works on: its argument, or the active
    context when the argument is null. *)
Definition reset_target (cov : Z) (s : state) : Z :=
  if cov =? 0 then current_cover s else cov.

(** *** Memory *)

Lemma store_u64_outside (m : Z -> Z) (addr v a : Z) :
  a < addr \/ addr + 8 <= a -> store_u64 m addr v a = m a.
Proof.
  intros H. unfold store_u64.
  destruct (Z.leb_spec addr a); destruct (Z.ltb_spec a (addr + 8));
    cbn [andb]; try reflexivity; lia.
Qed.

Lemma load_u64_store_apart (m : Z -> Z) (d v a : Z) :
  a + 8 <= d \/ d + 8 <= a ->
  load_u64 (store_u64 m d v) a = load_u64 m a.
Proof.
  intros H. unfold load_u64. cbn [seq fold_right].
  rewrite !store_u64_outside by (cbn; lia). reflexivity.
Qed.

Lemma store_u64_twice (m : Z -> Z) (d v a : Z) :
  store_u64 (store_u64 m d v) d v a = store_u64 m d v a.
Proof.
  unfold store_u64. destruct ((d <=? a) && (a <? d + 8)); reflexivity.
Qed.

(** *** cover_reset *)

(** What a reset that reaches its store does. *)
Lemma cover_reset_on (cov : Z) (s : state) :
  flag_coverage s = true -> reset_target cov s <> 0 ->
  cover_reset cov s = Done (reset_counter (reset_target cov s) s).
Proof.
  intros Hflag Ht. unfold cover_reset, reset_target in *.
  rewrite Hflag. cbn [negb].
  destruct (Z.eqb_spec cov 0) as [E | N]; [| reflexivity].
  destruct (Z.eqb_spec (current_cover s) 0) as [E0 | N0];
    [contradiction | reflexivity].
Qed.

(** X8: with coverage on, a reset of a context (the one given, or the
    active one when none is given) returns, after which the live
    counter of that context reads 0; it writes the eight bytes at the
    head of the buffer and changes nothing else: not the rest of memory,
    not a field of any context, not the active context, and it makes no
    call. *)
Theorem cover_reset_zeroes (cov : Z) (s : state) :
  flag_coverage s = true -> reset_target cov s <> 0 ->
  returns_with (cover_reset cov s) (fun s' =>
    live_counter s' (reset_target cov s) = 0 /\
    (forall a, a < data (covers s (reset_target cov s))
               \/ data (covers s (reset_target cov s)) + 8 <= a ->
               mem s' a = mem s a) /\
    covers s' = covers s /\
    current_cover s' = current_cover s /\
    trace s' = trace s).
Proof.
  intros Hflag Ht. rewrite (cover_reset_on cov s Hflag Ht).
  cbn [returns_with]. split; [apply reset_counter_reads_zero |].
  split; [| repeat split].
  intros a Ha. cbn [reset_counter set_mem mem].
  apply store_u64_outside. exact Ha.
Qed.

Lemma cover_reset_zeroes_witness :
  returns_with (cover_reset 0 (sample_state true 8)) (fun s' =>
    live_counter s' (reset_target 0 (sample_state true 8)) = 0 /\
    (forall a,
       a < data (covers (sample_state true 8)
                        (reset_target 0 (sample_state true 8)))
       \/ data (covers (sample_state true 8)
                       (reset_target 0 (sample_state true 8))) + 8 <= a ->
       mem s' a = mem (sample_state true 8) a) /\
    covers s' = covers (sample_state true 8) /\
    current_cover s' = current_cover (sample_state true 8) /\
    trace s' = trace (sample_state true 8)).
Proof.
  apply (cover_reset_zeroes 0 (sample_state true 8));
    [reflexivity | discriminate].
Defined.

(** X9: [cover_reset] is idempotent: a second reset of the same context
    returns too and leaves every byte of memory and every other part of
    the state as the first one left it. *)
Theorem cover_reset_idempotent (cov : Z) (s s1 : state) :
  cover_reset cov s = Done s1 ->
  returns_with (cover_reset cov s1) (fun s2 =>
    (forall a, mem s2 a = mem s1 a) /\
    covers s2 = covers s1 /\
    current_cover s2 = current_cover s1 /\
    flag_coverage s2 = flag_coverage s1 /\
    trace s2 = trace s1).
Proof.
  unfold cover_reset.
  destruct (flag_coverage s) eqn:Hflag; cbn [negb].
  - destruct (cov =? 0) eqn:Hcov.
    + destruct (current_cover s =? 0) eqn:Hcur; [discriminate |].
      intros H. injection H as <-.
      cbn [reset_counter set_mem flag_coverage current_cover negb].
      rewrite Hflag, Hcur. cbn [negb returns_with covers mem].
      split; [intros a; apply store_u64_twice |].
      repeat split; try reflexivity; exact Hflag.
    + intros H. injection H as <-.
      cbn [reset_counter set_mem flag_coverage negb].
      rewrite Hflag. cbn [negb returns_with covers mem].
      split; [intros a; apply store_u64_twice |].
      repeat split; try reflexivity; exact Hflag.
  - intros H. injection H as <-. rewrite Hflag.
    cbn [negb returns_with]. repeat split; exact Hflag.
Qed.

Lemma cover_reset_idempotent_witness :
  returns_with
    (cover_reset 8 (reset_counter 8 (sample_state true 8)))
    (fun s2 =>
       (forall a, mem s2 a = mem (reset_counter 8 (sample_state true 8)) a) /\
       covers s2 = covers (reset_counter 8 (sample_state true 8)) /\
       current_cover s2
         = current_cover (reset_counter 8 (sample_state true 8)) /\
       flag_coverage s2
         = flag_coverage (reset_counter 8 (sample_state true 8)) /\
       trace s2 = trace (reset_counter 8 (sample_state true 8))).
Proof.
  apply (cover_reset_idempotent 8 (sample_state true 8)). reflexivity.
Defined.

(** X10: a reset does not disturb another context whose buffer starts
    at least eight bytes away from the one that is reset: the live
    counter of that context reads what it read before. *)
Theorem cover_reset_other_context (cov other : Z) (s s' : state) :
  cover_reset cov s = Done s' ->
  data (covers s other) + 8 <= data (covers s (reset_target cov s))
  \/ data (covers s (reset_target cov s)) + 8 <= data (covers s other) ->
  live_counter s' other = live_counter s other.
Proof.
  unfold cover_reset, reset_target.
  destruct (flag_coverage s); cbn [negb].
  - destruct (cov =? 0).
    + destruct (current_cover s =? 0); [discriminate |].
      intros H Hapart. injection H as <-.
      apply load_u64_store_apart. exact Hapart.
    + intros H Hapart. injection H as <-.
      apply load_u64_store_apart. exact Hapart.
  - intros H _. injection H as <-. reflexivity.
Qed.

(** Two contexts whose buffers are 64 bytes apart. *)
Definition two_contexts : state :=
  mk_state true true 0 30000 8
           (fun p => if p =? 8 then mk_cover 30 0 4096 0
                     else mk_cover 31 0 4160 0)
           (fun _ => 7) 0 [].

Lemma cover_reset_other_context_witness :
  live_counter (reset_counter 8 two_contexts) 16
  = live_counter two_contexts 16.
Proof.
  apply (cover_reset_other_context 8 16 two_contexts
           (reset_counter 8 two_contexts));
    [reflexivity | right; cbn; lia].
Defined.

(** *** cover_collect *)

(** What a collect that returns has done. *)
Lemma cover_collect_done (env : collect_env) (cov : Z) (s s' : state) :
  cover_collect env cov s = Done s' ->
  cov <> 0 /\ ce_fopen env = true /\
  size (covers s' cov) = Z.quot (to_int (ce_ftell env)) 32 /\
  data (covers s' cov) = data (covers s cov) /\
  mem s' = mem s /\
  (forall p, p <> cov -> covers s' p = covers s p).
Proof.
  unfold cover_collect.
  destruct (ce_fopen env); cbn [negb]; [| discriminate].
  destruct (Z.eqb_spec cov 0) as [E | N]; [discriminate |].
  intros H. injection H as <-.
  cbn [update_cover set_covers covers emit mem].
  rewrite Z.eqb_refl. cbn [with_size size data].
  repeat split; try assumption.
  intros p Hp. destruct (Z.eqb_spec p cov); [contradiction | reflexivity].
Qed.

Lemma to_int_near_zero (x : Z) : - 2 ^ 31 <= x < 2 ^ 31 -> to_int x = x.
Proof.
  intros H. unfold to_int. rewrite Z.mod_small; lia.
Qed.

(** X11: the collected size depends on the file only, not on the state
    of the process: when a collect returns in one state, a collect on the
    same file in any other state (before or after a reset, with other
    buffers and counters) returns too and stores the same size; and a
    collect leaves the live counter of the context as it was. *)
Theorem cover_collect_state_blind
        (env : collect_env) (c : Z) (s s1 s2 : state) :
  cover_collect env c s1 = Done s2 ->
  returns_with (cover_collect env c s)
               (fun t => size (covers t c) = size (covers s2 c)) /\
  live_counter s2 c = live_counter s1 c.
Proof.
  intros Hcol.
  destruct (cover_collect_done env c s1 s2 Hcol)
    as [Hc [Hopen [Hsize [Hdata [Hmem _]]]]].
  split.
  - destruct (cover_collect env c s) as [t | | |] eqn:Ht.
    + destruct (cover_collect_done env c s t Ht) as [_ [_ [Hsz _]]].
      cbn [returns_with]. congruence.
    + unfold cover_collect in Ht. rewrite Hopen in Ht. cbn [negb] in Ht.
      destruct (c =? 0); discriminate.
    + unfold cover_collect in Ht. rewrite Hopen in Ht. cbn [negb] in Ht.
      destruct (c =? 0); discriminate.
    + unfold cover_collect in Ht. rewrite Hopen in Ht. cbn [negb] in Ht.
      destruct (Z.eqb_spec c 0); [contradiction | discriminate].
  - unfold live_counter. rewrite Hdata, Hmem. reflexivity.
Qed.

Lemma cover_collect_state_blind_witness :
  returns_with
    (cover_collect (mk_collect_env true 100) 8 (sample_state true 8))
    (fun t =>
       size (covers t 8)
       = size (covers
                 (update_cover 8 (with_size 3)
                    (emit [EvFopen "/dev/cov" "r" true; EvFseekEnd;
                           EvFtell 100]
                          (reset_counter 8 two_contexts))) 8)) /\
  live_counter
    (update_cover 8 (with_size 3)
       (emit [EvFopen "/dev/cov" "r" true; EvFseekEnd; EvFtell 100]
             (reset_counter 8 two_contexts))) 8
  = live_counter (reset_counter 8 two_contexts) 8.
Proof.
  apply (cover_collect_state_blind (mk_collect_env true 100) 8
           (sample_state true 8) (reset_counter 8 two_contexts)).
  reflexivity.
Defined.

(** X12: when the size [n] of [/dev/cov] fits an [int], the collected
    size is the number of whole 32-byte records in the file: it lies
    between 0 and [2^26], [32 * size <= n < 32 * size + 32], and the
    fields of every other context are left as they were. *)
Theorem cover_collect_whole_records
        (env : collect_env) (cov : Z) (s s' : state) :
  cover_collect env cov s = Done s' -> 0 <= ce_ftell env < 2 ^ 31 ->
  0 <= size (covers s' cov) < 2 ^ 26 /\
  32 * size (covers s' cov) <= ce_ftell env
    < 32 * size (covers s' cov) + 32 /\
  (forall p, p <> cov -> covers s' p = covers s p).
Proof.
  intros Hcol Hn.
  destruct (cover_collect_done env cov s s' Hcol)
    as [_ [_ [Hsize [_ [_ Hframe]]]]].
  rewrite Hsize, to_int_near_zero by lia.
  rewrite Z.quot_div_nonneg by lia.
  pose proof (Z.div_mod (ce_ftell env) 32 ltac:(lia)) as Hdm.
  pose proof (Z.mod_pos_bound (ce_ftell env) 32 ltac:(lia)) as Hmod.
  repeat split; try lia. exact Hframe.
Qed.

Lemma cover_collect_whole_records_witness :
  0 <= size (covers
               (update_cover 8 (with_size 3)
                  (emit [EvFopen "/dev/cov" "r" true; EvFseekEnd;
                         EvFtell 100] (sample_state true 8))) 8) < 2 ^ 26.
Proof.
  apply (cover_collect_whole_records (mk_collect_env true 100) 8
           (sample_state true 8)
           (update_cover 8 (with_size 3)
              (emit [EvFopen "/dev/cov" "r" true; EvFseekEnd; EvFtell 100]
                    (sample_state true 8))));
    [reflexivity | cbn; lia].
Defined.

(** X13: a file shorter than one record, and a failing [ftell] (which
    returns -1), both give the collected size 0: the division truncates
    towards zero, so an error is read as no coverage. *)
Theorem cover_collect_short_or_failed
        (env : collect_env) (cov : Z) (s s' : state) :
  cover_collect env cov s = Done s' -> -32 < ce_ftell env < 32 ->
  size (covers s' cov) = 0.
Proof.
  intros Hcol Hn.
  destruct (cover_collect_done env cov s s' Hcol) as [_ [_ [Hsize _]]].
  rewrite Hsize, to_int_near_zero by lia.
  destruct (Z.le_gt_cases 0 (ce_ftell env)) as [Hpos | Hneg].
  - apply Z.quot_small. lia.
  - replace (ce_ftell env) with (- - ce_ftell env) by lia.
    rewrite Z.quot_opp_l by lia.
    rewrite Z.quot_small by lia. reflexivity.
Qed.

Lemma cover_collect_short_or_failed_witness :
  size (covers
          (update_cover 8 (with_size 0)
             (emit [EvFopen "/dev/cov" "r" true; EvFseekEnd; EvFtell (-1)]
                   (sample_state true 8))) 8) = 0.
Proof.
  apply (cover_collect_short_or_failed (mk_collect_env true (-1)) 8
           (sample_state true 8)
           (update_cover 8 (with_size 0)
              (emit [EvFopen "/dev/cov" "r" true; EvFseekEnd;
                     EvFtell (-1)] (sample_state true 8))));
    [reflexivity | cbn; lia].
Defined.

(** *** cover_enable *)

(** X14: [cover_enable] never fails fatally.  When [system] reports 0
    it returns, having made that one call; a primary context has become
    the active one, an extra context has not.  When [system] reports
    anything else the attempt ends through [exitf]. *)
Theorem cover_enable_outcome
        (r cov : Z) (collect_comps extra : bool) (s : state) :
  (r = 0 ->
   returns_with (cover_enable r cov collect_comps extra s) (fun s' =>
     current_cover s' = (if extra then current_cover s else cov) /\
     trace s' = trace s ++ [EvSystem "/root/cov" 0] /\
     mem s' = mem s /\ covers s' = covers s)) /\
  (r <> 0 ->
   exists msg, cover_enable r cov collect_comps extra s = Exited msg).
Proof.
  unfold cover_enable, enable_remote_cover, exitf. split.
  - intros ->. destruct extra, (is_kernel_64_bit s); cbn; repeat split.
  - intros Hr. destruct (Z.eqb_spec r 0) as [E | _]; [contradiction |].
    destruct extra, (is_kernel_64_bit s); cbn [negb]; eauto.
Qed.

(** The trace mode is never passed on: comparison tracing and
    address tracing are enabled by the very same call and leave the very
    same state. *)
Lemma cover_enable_mode_ignored (r cov : Z) (extra : bool) (s : state) :
  cover_enable r cov true extra s = cover_enable r cov false extra s.
Proof.
  unfold cover_enable. destruct extra; reflexivity.
Qed.



(** *** cover_open *)

(** The calls a [cover_open] that returns has made. *)
Definition open_calls (env : open_env) (cov_fd : Z) : list event :=
  [EvOpen "/dev/cov" (oe_open1 env)]
  ++ (if oe_open1 env =? -1
      then [EvFopen "/dev/cov" "a+" true; EvFclose] else [])
  ++ [EvOpen "/dev/cov" (oe_open2 env);
      EvDup2 (oe_open2 env) cov_fd (oe_dup2 env);
      EvClose (oe_open2 env);
      EvSystem "/root/cov" (oe_system env);
      EvMmap 640000 cov_fd (oe_mmap env)].

(** Every answer of the operating system lets [cover_open] go on. *)
Definition open_answers_ok (env : open_env) : Prop :=
  (oe_open1 env = -1 -> oe_fopen env = true) /\
  0 <= oe_dup2 env /\
  oe_system env = 0 /\
  oe_mmap env <> MAP_FAILED.

(** What a [cover_open] that returns has done. *)
Lemma cover_open_done (elem : Z) (dbg : bool) (env : open_env)
      (cov : Z) (extra : bool) (s s' : state) :
  cover_open elem dbg env cov extra s = Done s' ->
  (cov <> 0 /\ open_answers_ok env) /\
  trace s' = trace s ++ open_calls env (fd (covers s cov)) /\
  (current_cover s' = current_cover s /\ mem s' = mem s /\
   flag_coverage s' = flag_coverage s /\
   is_kernel_64_bit s' = is_kernel_64_bit s /\ errno s' = errno s) /\
  (fd (covers s' cov) = fd (covers s cov) /\
   size (covers s' cov) = size (covers s cov)) /\
  (forall p, p <> cov -> covers s' p = covers s p).
Proof.
  unfold cover_open, create_device, map_buffer, open_answers_ok,
    open_calls.
  destruct (Z.eqb_spec cov 0) as [E0 | Hcov]; [discriminate |].
  destruct (Z.eqb_spec (oe_open1 env) (-1)) as [E1 | N1];
    [destruct (oe_fopen env) eqn:Hf; [| discriminate] |];
    (destruct (Z.ltb_spec (oe_dup2 env) 0) as [Hd | Hd]; [discriminate |]);
    (destruct (Z.eqb_spec (oe_system env) 0) as [Hs | Hs]; cbn [negb];
       [| discriminate]);
    cbn [update_cover set_covers covers emit];
    rewrite Z.eqb_refl; cbn [with_data data];
    (destruct (Z.eqb_spec (oe_mmap env) MAP_FAILED) as [Hm | Hm];
       [destruct dbg; discriminate |]);
    intros H; injection H as <-;
    cbn [update_cover set_covers emit set_mmap_alloc_size set_cover_size
         trace current_cover mem flag_coverage is_kernel_64_bit errno
         covers];
    rewrite !Z.eqb_refl; cbn [with_data_end with_data fd size];
    rewrite <- !app_assoc; cbn [app];
    (repeat split; try assumption; try reflexivity; try contradiction);
    intros p Hp; (destruct (Z.eqb_spec p cov); [contradiction | reflexivity]).
Qed.



(** X17: how [cover_open] ends when a step fails, in the order of the
    steps: a device file that can neither be opened nor created leads to
    [fclose] of a null stream; a failing [dup2] and a failing [system]
    each abort with their own diagnostic; and a failed mapping is read
    through by the [debug] loop before it is checked, so the diagnostic
    of the mapping is reached only when [debug] does not evaluate its
    arguments. *)
Theorem cover_open_failures (elem : Z) (dbg : bool) (env : open_env)
        (cov : Z) (extra : bool) (s : state) :
  cov <> 0 ->
  (oe_open1 env = -1 -> oe_fopen env = false ->
   cover_open elem dbg env cov extra s = Undefined) /\
  ((oe_open1 env = -1 -> oe_fopen env = true) ->
   (oe_dup2 env < 0 ->
    cover_open elem dbg env cov extra s
    = Failed "filed to dup2(%d, %d) cover fd") /\
   (0 <= oe_dup2 env ->
    (oe_system env <> 0 ->
     cover_open elem dbg env cov extra s
     = Failed "cover init trace write failed") /\
    (oe_system env = 0 -> oe_mmap env = MAP_FAILED ->
     cover_open elem dbg env cov extra s
     = if dbg then Undefined else Failed "cover mmap failed"))).
Proof.
  intros Hcov. unfold cover_open, create_device, map_buffer, fail.
  destruct (Z.eqb_spec cov 0) as [E0 | _]; [contradiction |].
  split.
  - intros E1 Hf.
    destruct (Z.eqb_spec (oe_open1 env) (-1)); [| contradiction].
    rewrite Hf. reflexivity.
  - intros Hdev.
    assert (Hcreate :
      exists s1,
        (if oe_open1 env =? -1
         then if oe_fopen env
              then Done (emit [EvFopen "/dev/cov" "a+" true; EvFclose]
                           (emit [EvOpen "/dev/cov" (oe_open1 env)] s))
              else Undefined
         else Done (emit [EvOpen "/dev/cov" (oe_open1 env)] s))
        = Done s1 /\ covers s1 = covers s).
    { destruct (Z.eqb_spec (oe_open1 env) (-1)) as [E1 | N1].
      - rewrite (Hdev E1). eauto.
      - eauto. }
    destruct Hcreate as [s1 [-> Hcov1]]. split.
    + intros Hd. destruct (Z.ltb_spec (oe_dup2 env) 0); [reflexivity | lia].
    + intros Hd. destruct (Z.ltb_spec (oe_dup2 env) 0); [lia |]. split.
      * intros Hs. destruct (Z.eqb_spec (oe_system env) 0);
          [contradiction | reflexivity].
      * intros Hs Hm. rewrite Hs. cbn [Z.eqb negb].
        cbn [update_cover set_covers covers emit]. rewrite Z.eqb_refl.
        cbn [with_data data]. rewrite Hm. reflexivity.
Qed.

Lemma cover_open_failures_witness :
  (oe_open1 (mk_open_env 5 true 6 30 0 (-1)) = -1 ->
   oe_fopen (mk_open_env 5 true 6 30 0 (-1)) = false ->
   cover_open 4 true (mk_open_env 5 true 6 30 0 (-1)) 8 false
              (sample_state true 0) = Undefined) /\
  ((oe_open1 (mk_open_env 5 true 6 30 0 (-1)) = -1 ->
    oe_fopen (mk_open_env 5 true 6 30 0 (-1)) = true) ->
   (oe_dup2 (mk_open_env 5 true 6 30 0 (-1)) < 0 ->
    cover_open 4 true (mk_open_env 5 true 6 30 0 (-1)) 8 false
               (sample_state true 0)
    = Failed "filed to dup2(%d, %d) cover fd") /\
   (0 <= oe_dup2 (mk_open_env 5 true 6 30 0 (-1)) ->
    (oe_system (mk_open_env 5 true 6 30 0 (-1)) <> 0 ->
     cover_open 4 true (mk_open_env 5 true 6 30 0 (-1)) 8 false
                (sample_state true 0)
     = Failed "cover init trace write failed") /\
    (oe_system (mk_open_env 5 true 6 30 0 (-1)) = 0 ->
     oe_mmap (mk_open_env 5 true 6 30 0 (-1)) = MAP_FAILED ->
     cover_open 4 true (mk_open_env 5 true 6 30 0 (-1)) 8 false
                (sample_state true 0)
     = if true then Undefined else Failed "cover mmap failed"))).
Proof.
  apply (cover_open_failures 4 true (mk_open_env 5 true 6 30 0 (-1)) 8
           false (sample_state true 0)).
  discriminate.
Defined.

(** [cover_open] does not look at [extra]: a background context is
    opened by the same calls, with the same mapping, as a primary
    one. *)
Lemma cover_open_extra_ignored (elem : Z) (dbg : bool) (env : open_env)
        (cov : Z) (s : state) :
  cover_open elem dbg env cov true s = cover_open elem dbg env cov false s.
Proof. reflexivity. Qed.

(** X18: a [cover_open] that returns has closed the descriptor of its
    second [open] only: when the first [open] succeeded, its descriptor
    is still open afterwards, and when it failed no descriptor of
    [open] is left. *)
Theorem cover_open_descriptors (elem : Z) (dbg : bool) (env : open_env)
        (cov : Z) (extra : bool) (s s' : state) :
  cover_open elem dbg env cov extra s = Done s' ->
  oe_open1 env <> oe_open2 env ->
  exists evs,
    trace s' = trace s ++ evs /\
    Descriptors.open_after [] evs
    = if oe_open1 env =? -1 then [] else [oe_open1 env].
Proof.
  intros H Hne.
  destruct (cover_open_done _ _ _ _ _ _ _ H) as [_ [Htr _]].
  exists (open_calls env (fd (covers s cov))). split; [exact Htr |].
  unfold open_calls.
  destruct (Z.eqb_spec (oe_open1 env) (-1)) as [E1 | N1].
  - cbn [app Descriptors.open_after].
    rewrite E1 in *. cbn [Z.eqb Pos.eqb app].
    destruct (Z.eqb_spec (oe_open2 env) (-1)) as [E2 | N2].
    + congruence.
    + cbn [app Descriptors.drop_fd]. rewrite Z.eqb_refl. reflexivity.
  - cbn [app Descriptors.open_after].
    destruct (Z.eqb_spec (oe_open1 env) (-1)) as [E | _];
      [contradiction |].
    cbn [app].
    destruct (Z.eqb_spec (oe_open2 env) (-1)) as [E2 | N2].
    + cbn [Descriptors.drop_fd].
      destruct (Z.eqb_spec (oe_open1 env) (oe_open2 env));
        [contradiction | reflexivity].
    + cbn [app Descriptors.drop_fd].
      destruct (Z.eqb_spec (oe_open1 env) (oe_open2 env));
        [contradiction |].
      rewrite Z.eqb_refl. reflexivity.
Qed.

Lemma cover_open_descriptors_witness :
  exists evs,
    trace opened_state = trace (sample_state true 0) ++ evs /\
    Descriptors.open_after [] evs
    = if oe_open1 open_succeeds =? -1 then [] else [oe_open1 open_succeeds].
Proof.
  apply (cover_open_descriptors 4 true open_succeeds 8 false
           (sample_state true 0) opened_state);
    [reflexivity | discriminate].
Defined.



(** The two size globals after a [cover_open] that returns. *)
Lemma cover_open_sizes (elem : Z) (dbg : bool) (env : open_env)
      (cov : Z) (extra : bool) (s s' : state) :
  cover_open elem dbg env cov extra s = Done s' ->
  cover_size s' = 640000 /\
  mmap_alloc_size s' = 640000 * (if is_kernel_64_bit s then 8 else 4).
Proof.
  unfold cover_open.
  destruct (cov =? 0); [discriminate |].
  destruct (create_device env (emit [EvOpen "/dev/cov" (oe_open1 env)] s))
    as [s1 | | |] eqn:Hdev; try discriminate.
  apply create_device_keeps in Hdev. destruct Hdev as [_ [H64 _]].
  destruct (oe_dup2 env <? 0); [discriminate |].
  destruct (oe_system env =? 0); cbn [negb]; [| discriminate].
  intros Hmap. apply map_buffer_done in Hmap.
  destruct Hmap as [_ [Hsz [Halloc _]]].
  rewrite Hsz, Halloc.
  cbn [set_mmap_alloc_size set_cover_size emit cover_size mmap_alloc_size
       is_kernel_64_bit].
  rewrite H64. split; reflexivity.
Qed.

End CoverFacts.

(* ================================================================= *)
(** ** More on the syscall executor *)

Module SyscallFacts.

Import Executor.

Lemma args_upto_ext (n : nat) (a a' : nat -> Z) :
  (forall i, (i < n)%nat -> a i = a' i) -> args_upto n a = args_upto n a'.
Proof.
  intros H. unfold args_upto. apply map_ext_in.
  intros i Hi. apply in_seq in Hi. apply H. lia.
Qed.

(** X20: only the first nine argument slots can reach a custom
    routine, and only the first six can reach the kernel: two argument
    arrays that agree on those slots give the same result and the same
    state. *)
Theorem execute_syscall_arguments
        (syscall : Z -> list Z -> state -> Z * state)
        (c : call_t) (a a' : nat -> Z) (s : state) :
  ((forall i, (i < 9)%nat -> a i = a' i) ->
   execute_syscall syscall c a s = execute_syscall syscall c a' s) /\
  (call c = None -> (forall i, (i < 6)%nat -> a i = a' i) ->
   execute_syscall syscall c a s = execute_syscall syscall c a' s).
Proof.
  unfold execute_syscall. split.
  - intros H.
    rewrite (args_upto_ext 9 a a' H).
    rewrite (args_upto_ext 6 a a') by (intros i Hi; apply H; lia).
    reflexivity.
  - intros Hc H. rewrite Hc.
    rewrite (args_upto_ext 6 a a' H). reflexivity.
Qed.

(** A gate that returns the sum of the arguments it is given. *)
Definition summing_gate (nr : Z) (args : list Z) (s : state) : Z * state :=
  (fold_right Z.add 0 args, s).

Lemma execute_syscall_arguments_witness :
  execute_syscall summing_gate (mk_call "getpid" 39 None)
                  (fun i => Z.of_nat i) (sample_state true 0)
  = execute_syscall summing_gate (mk_call "getpid" 39 None)
                    (fun i => if (i <? 6)%nat then Z.of_nat i else 0)
                    (sample_state true 0).
Proof.
  apply (proj2 (execute_syscall_arguments summing_gate
                  (mk_call "getpid" 39 None) (fun i => Z.of_nat i)
                  (fun i => if (i <? 6)%nat then Z.of_nat i else 0)
                  (sample_state true 0)) eq_refl).
  intros i Hi. destruct (Nat.ltb_spec i 6); [reflexivity | lia].
Defined.

End SyscallFacts.

(* ================================================================= *)
(** ** Start-up *)

Module Init.

Import Executor.

(** [is_kernel_64_bit = v] *)
Definition set_is_kernel_64_bit (v : bool) (s : state) : state :=
  mk_state (flag_coverage s) v (cover_size s) (mmap_alloc_size s)
           (current_cover s) (covers s) (mem s) (errno s) (trace s).

(** [PR_SET_PDEATHSIG] of [<sys/prctl.h>] and [SIGKILL] of
    [<signal.h>] on Linux. *)
Definition PR_SET_PDEATHSIG : Z := 1.
Definition SIGKILL : Z := 9.

(** What the operating system answers to [os_init]: the symbol table,
    and the address [mmap] returns. *)
Record init_env : Type := mk_init_env {
  ie_kallsyms : Bitness.kallsyms_env;
  ie_mmap : Z
}.

Section OsInit.

(** The number of the [prctl] system call and [sizeof(void * )] of the
    build. *)
Variable NR_prctl : Z.
Variable sizeof_ptr : Z.

(** [[
    static void os_init(int argc, char **argv, void *data, size_t data_size) {
      prctl(PR_SET_PDEATHSIG, SIGKILL, 0, 0, 0);
      is_kernel_64_bit = detect_kernel_bitness();
      if (mmap(data, data_size, PROT_READ | PROT_WRITE | PROT_EXEC,
               MAP_ANON | MAP_PRIVATE | MAP_FIXED, -1, 0) != data)
        fail("mmap of data segment failed");
    }
    ]] *)
Definition os_init (env : init_env) (data data_size : Z) (s : state)
  : outcome state :=
  let s := emit [EvSyscall NR_prctl [PR_SET_PDEATHSIG; SIGKILL; 0; 0; 0]] s in
  let detected := Bitness.detect_kernel_bitness sizeof_ptr (ie_kallsyms env) in
  let s := set_is_kernel_64_bit (fst detected) (emit (snd detected) s) in
  let s := emit [EvMmap data_size (-1) (ie_mmap env)] s in
  if negb (ie_mmap env =? data) then fail "mmap of data segment failed"
  else Done s.

End OsInit.


(** X22: start-up followed by [cover_open]: when both return, the
    product stored in [mmap_alloc_size] follows the detector (640000
    entries of 8 bytes when it answered 64-bit, of 4 bytes otherwise),
    on a build with 8-byte pointers always 5120000, while the mapping
    that was asked for has 640000 bytes in either case. *)
Theorem os_init_then_cover_open
        (nr sizeof_ptr : Z) (ienv : init_env) (data data_size : Z)
        (elem : Z) (dbg : bool) (oenv : open_env) (cov : Z) (extra : bool)
        (s s1 s2 : state) :
  os_init nr sizeof_ptr ienv data data_size s = Done s1 ->
  cover_open elem dbg oenv cov extra s1 = Done s2 ->
  mmap_alloc_size s2
  = 640000 * (if fst (Bitness.detect_kernel_bitness sizeof_ptr
                        (ie_kallsyms ienv)) then 8 else 4) /\
  (sizeof_ptr = 8 -> mmap_alloc_size s2 = 5120000) /\
  mmap_lengths (trace s2) = mmap_lengths (trace s1) ++ [640000].
Proof.
  intros Hinit Hopen.
  destruct (CoverFacts.cover_open_sizes _ _ _ _ _ _ _ Hopen) as [_ Halloc].
  destruct (CoverFacts.cover_open_done _ _ _ _ _ _ _ Hopen)
    as [_ [Htr _]].
  assert (H64 : is_kernel_64_bit s1
                = fst (Bitness.detect_kernel_bitness sizeof_ptr
                         (ie_kallsyms ienv))).
  { revert Hinit. unfold os_init, fail.
    destruct (ie_mmap ienv =? data); cbn [negb]; [| discriminate].
    intros H. injection H as <-. reflexivity. }
  rewrite Halloc, H64. split; [reflexivity |]. split.
  - intros ->. reflexivity.
  - rewrite Htr, mmap_lengths_app. unfold CoverFacts.open_calls.
    rewrite !mmap_lengths_app.
    destruct (oe_open1 oenv =? -1); cbn; rewrite ?app_nil_r; reflexivity.
Qed.

(** A 32-bit executor in front of a 32-bit kernel. *)
Definition narrow_boot : init_env :=
  mk_init_env
    (Bitness.mk_kallsyms 3
       (Some (list_ascii_of_string "c1000000 T _text")))
    4096.

Definition booted_state : state :=
  match os_init 172 4 narrow_boot 4096 8192 (sample_state true 0) with
  | Done s => s
  | _ => sample_state true 0
  end.

Definition booted_and_opened : state :=
  match cover_open 4 true open_succeeds 8 false booted_state with
  | Done s => s
  | _ => booted_state
  end.

Lemma os_init_then_cover_open_witness :
  mmap_alloc_size booted_and_opened
  = 640000 * (if fst (Bitness.detect_kernel_bitness 4
                        (ie_kallsyms narrow_boot)) then 8 else 4) /\
  (4 = 8 -> mmap_alloc_size booted_and_opened = 5120000) /\
  mmap_lengths (trace booted_and_opened)
  = mmap_lengths (trace booted_state) ++ [640000].
Proof.
  apply (os_init_then_cover_open 172 4 narrow_boot 4096 8192 4 true
           open_succeeds 8 false (sample_state true 0) booted_state
           booted_and_opened);
    reflexivity.
Defined.

End Init.
